(** * Flashcards application: deck registry, persistence, search, study
      navigation and the modal focus trap

    A shallow embedding of the JavaScript sources ([app.js], the storage and
    search module, and the stand-alone modal component) together with the
    properties the specification states about them.

    The first part of the file holds the model, one module per source class;
    the second part holds the theorems. *)

From Stdlib Require Import ZArith QArith Qround Ascii String List Bool.
From Stdlib Require Import Lia Lqa.
From stdpp Require Import base list.
Import ListNotations.

Set Default Proof Using "Type".

Local Open Scope string_scope.
Local Open Scope list_scope.

(* ===================================================================== *)
(** * Part I: the model *)
(* ===================================================================== *)

(** ** JavaScript values that come out of [JSON.parse] *)

Module Json.

(** A parsed JSON document.  Numbers are rationals: every JSON number
    literal is a decimal fraction, and the code only asks whether a number
    is an integer, compares it and adds one to it. *)
#[warnings="-register-all"]
Inductive json : Type :=
| JNull
| JBool (b : bool)
| JNum (q : Q)
| JStr (s : string)
| JArr (items : list json)
| JObj (fields : list (string * json)).

(** A JavaScript value as far as the persistence code sees it: a JSON value
    or [undefined] (written [None]). *)
Definition value : Type := option json.

(** Exceptions. *)
Inductive exn : Type :=
| TypeError
| SyntaxError
| Error (msg : string).

(** A computation that returns or throws. *)
Inductive result (A : Type) : Type :=
| Ok (a : A)
| Throw (e : exn).
Arguments Ok {A} a.
Arguments Throw {A} e.

Definition bind {A B} (r : result A) (k : A -> result B) : result B :=
  match r with
  | Ok a => k a
  | Throw e => Throw e
  end.

(** [try { r } catch (e) { h e }] *)
Definition try_catch {A} (r : result A) (h : exn -> result A) : result A :=
  match r with
  | Ok a => Ok a
  | Throw e => h e
  end.

(** [xs.map(f)] where [f] may throw: the first exception aborts the map. *)
Fixpoint mapM {A B} (f : A -> result B) (xs : list A) : result (list B) :=
  match xs with
  | [] => Ok []
  | x :: xs' =>
      bind (f x) (fun y => bind (mapM f xs') (fun ys => Ok (y :: ys)))
  end.

(** A loop body run over the successive values of the loop variable. *)
Fixpoint foldM {A S} (f : S -> A -> result S) (xs : list A) (s : S)
  : result S :=
  match xs with
  | [] => Ok s
  | x :: xs' => bind (f s x) (foldM f xs')
  end.

(** Own-property lookup in an object literal: the first binding of [k]. *)
Fixpoint assoc (k : string) (fields : list (string * json)) : value :=
  match fields with
  | [] => None
  | (k', v) :: rest => if String.eqb k k' then Some v else assoc k rest
  end.

(** [obj[k] = v] on an object: an existing key keeps its place, a new key
    goes last. *)
Fixpoint set_field (k : string) (v : json) (fields : list (string * json))
  : list (string * json) :=
  match fields with
  | [] => [(k, v)]
  | (k', v') :: rest =>
      if String.eqb k k' then (k, v) :: rest
      else (k', v') :: set_field k v rest
  end.

(** [x.k] for the property names the application reads ([id], [name],
    [cards], [decks], [version], ...): reading from [null] or [undefined]
    throws a [TypeError]; a primitive or an array has no such property. *)
Definition prop (x : value) (k : string) : result value :=
  match x with
  | None => Throw TypeError
  | Some JNull => Throw TypeError
  | Some (JObj fields) => Ok (assoc k fields)
  | Some _ => Ok None
  end.

(** Truthiness ([!!x]). *)
Definition truthy (x : value) : bool :=
  match x with
  | None => false
  | Some JNull => false
  | Some (JBool b) => b
  | Some (JNum q) => negb (Qeq_bool q 0)
  | Some (JStr s) => negb (String.eqb s "")
  | Some (JArr _) => true
  | Some (JObj _) => true
  end.

(** [typeof x === "object"] *)
Definition typeof_object (x : value) : bool :=
  match x with
  | Some JNull | Some (JArr _) | Some (JObj _) => true
  | _ => false
  end.

(** [typeof x === "number"] *)
Definition typeof_number (x : value) : bool :=
  match x with
  | Some (JNum _) => true
  | _ => false
  end.

(** [x === null] *)
Definition is_null (x : value) : bool :=
  match x with
  | Some JNull => true
  | _ => false
  end.

(** [Array.isArray(x)] *)
Definition isArray (x : value) : bool :=
  match x with
  | Some (JArr _) => true
  | _ => false
  end.

(** Is the rational [q] a whole number? *)
Definition Q_is_integer (q : Q) : bool :=
  Qeq_bool (inject_Z (Qfloor q)) q.

(** [Number.isInteger(x)] *)
Definition isInteger (x : value) : bool :=
  match x with
  | Some (JNum q) => Q_is_integer q
  | _ => false
  end.

(** [x === n] for a number [n]. *)
Definition strict_eq_num (x : value) (n : Q) : bool :=
  match x with
  | Some (JNum q) => Qeq_bool q n
  | _ => false
  end.

(** [x || d] *)
Definition or_else (x : value) (d : json) : json :=
  match x with
  | Some j => if truthy x then j else d
  | None => d
  end.

End Json.

(** ** [StorageManager]: versioned load of the persisted snapshot *)

Module StorageManager.
Import Json.

(** [StorageConfig.VERSION] *)
Definition VERSION : Q := 1.

(** The browser's [localStorage] as this module uses it: either every access
    throws (private mode, disabled storage, exhausted quota), or it holds at
    most one item under [StorageConfig.STORAGE_KEY]. *)
Inductive localStorage : Type :=
| Unavailable
| Slot (item : option string).

(** [isLocalStorageAvailable]: the probe write succeeds or is caught. *)
Definition isLocalStorageAvailable (ls : localStorage) : bool :=
  match ls with
  | Unavailable => false
  | Slot _ => true
  end.

(** [localStorage.getItem(this.storageKey)]; [null] is [None]. *)
Definition getItem (ls : localStorage) : result (option string) :=
  match ls with
  | Unavailable => Throw (Error "SecurityError")
  | Slot item => Ok item
  end.

(** The value of the loop variable [v] of [migrateState]: a number, or a
    string when [fromVersion + 1] concatenated. *)
Inductive loopvar : Type :=
| LNum (q : Q)
| LStr (s : string).

Section WithPlatform.

(** Built-ins of the platform that the module calls. *)

(** [JSON.parse]; [None] when the text is not JSON (a [SyntaxError]). *)
Variable JSON_parse : string -> option json.

(** [new Date().toISOString()] *)
Variable now : string.

(** The number a string converts to; [None] for [NaN]. *)
Variable StringToNumber : string -> option Q.

(** The string an array or object converts to under [+]. *)
Variable ObjectToString : json -> string.

(** [getDefaultState] *)
Definition getDefaultState : json :=
  JObj [ ("version", JNum VERSION);
         ("decks", JArr []);
         ("selectedDeckId", JNull);
         ("searchQuery", JStr "");
         ("savedAt", JStr now) ].

(** [isValidStateStructure]: the conjunction short-circuits, so [data.decks]
    is only read from a truthy object. *)
Definition isValidStateStructure (data : value) : bool :=
  truthy data &&
  typeof_object data &&
  match prop data "decks" with
  | Ok decks => isArray decks
  | Throw _ => false
  end &&
  match prop data "selectedDeckId" with
  | Ok sel => is_null sel || typeof_number sel
  | Throw _ => false
  end.

(** The object literal built for one deck by [migrateToV1].  A property whose
    value is [undefined] is left out, as it is once the result has gone
    through [JSON.stringify]. *)
Definition migrateDeck (deck : json) : result json :=
  bind (prop (Some deck) "id") (fun id =>
  bind (prop (Some deck) "name") (fun name =>
  bind (prop (Some deck) "cards") (fun cards =>
  bind (prop (Some deck) "createdAt") (fun createdAt =>
  Ok (JObj
        (match id with Some i => [("id", i)] | None => [] end ++
         [ ("name", or_else name (JStr "Untitled Deck"));
           ("cards", match cards with
                     | Some (JArr cs) => JArr cs
                     | _ => JArr []
                     end);
           ("createdAt", or_else createdAt (JStr now)) ])))))).

(** [migrateToV1] *)
Definition migrateToV1 (data : json) : result json :=
  bind (prop (Some data) "decks") (fun decks =>
  bind (match or_else decks (JArr []) with
        | JArr ds => mapM migrateDeck ds
        | _ => Throw TypeError (* [.map] is not a function *)
        end) (fun migratedDecks =>
  match data with
  | JObj fields =>
      Ok (JObj (set_field "version" (JNum 1)
                 (set_field "decks" (JArr migratedDecks) fields)))
  | _ =>
      Ok (JObj [ ("decks", JArr migratedDecks); ("version", JNum 1) ] )
  end)).

(** [this.migrationStrategies[v]]: the table has the single key [1]. *)
Definition has_strategy (v : loopvar) : bool :=
  match v with
  | LNum q => Qeq_bool q 1
  | LStr s => String.eqb s "1"
  end.

(** One pass through the loop body. *)
Definition migrate_step (migratedData : json) (v : loopvar) : result json :=
  if has_strategy v then migrateToV1 migratedData else Ok migratedData.

(** [fromVersion + 1] *)
Definition plus_one (fromVersion : json) : loopvar :=
  match fromVersion with
  | JNum q => LNum (q + 1)
  | JBool b => LNum ((if b then 1 else 0) + 1)
  | JNull => LNum 1
  | JStr s => LStr (String.append s "1")
  | JArr _ | JObj _ => LStr (String.append (ObjectToString fromVersion) "1")
  end.

(** The numeric values [v0, v0 + 1, ...] that the loop variable takes while
    [v <= this.version]. *)
Definition loop_values (v0 : Q) : list Q :=
  if Qle_bool v0 VERSION
  then map (fun i => (v0 + inject_Z (Z.of_nat i))%Q)
           (seq 0 (S (Z.to_nat (Qfloor (VERSION - v0)))))
  else [].

(** [for (let v = fromVersion + 1; v <= this.version; v++) ...]: after the
    first increment the loop variable is a number. *)
Definition migrate_loop (start : loopvar) (migratedData : json)
  : result json :=
  match start with
  | LNum q =>
      foldM migrate_step (map LNum (loop_values q)) migratedData
  | LStr s =>
      match StringToNumber s with
      | None => Ok migratedData
      | Some n =>
          if Qle_bool n VERSION
          then bind (migrate_step migratedData (LStr s))
                    (foldM migrate_step (map LNum (loop_values (n + 1))))
          else Ok migratedData
      end
  end.

(** [migrateState] *)
Definition migrateState (data : json) : result json :=
  bind (prop (Some data) "version") (fun version =>
  let fromVersion := or_else version (JNum 0) in
  bind (migrate_loop (plus_one fromVersion) data) (fun migratedData =>
  match migratedData with
  | JObj fields => Ok (JObj (set_field "version" (JNum VERSION) fields))
  | other => Ok other
  end)).

(** [JSON.parse(JSON.stringify(x))] on a parsed document: an equal document
    that shares nothing with [x]; documents are values here. *)
Definition deep_clone (x : json) : json := x.

(** The body of the [try] block of [loadState]. *)
Definition loadState_try (ls : localStorage) : result json :=
  if negb (isLocalStorageAvailable ls) then Ok getDefaultState
  else
    bind (getItem ls) (fun rawData =>
    match rawData with
    | None => Ok getDefaultState
    | Some raw =>
        if String.eqb raw "" then Ok getDefaultState
        else
          match JSON_parse raw with
          | None => Ok getDefaultState
          | Some parsedData =>
              if negb (isValidStateStructure (Some parsedData))
              then Ok getDefaultState
              else
                bind (prop (Some parsedData) "version") (fun version =>
                bind (if negb (strict_eq_num version VERSION)
                      then migrateState parsedData
                      else Ok parsedData) (fun parsedData' =>
                Ok (deep_clone parsedData')))
          end
    end).

(** [loadState] *)
Definition loadState (ls : localStorage) : result json :=
  try_catch (loadState_try ls) (fun _ => Ok getDefaultState).

End WithPlatform.


(** The shape the code guarantees: [selectedDeckId] is [null] or any number. *)
Definition well_formed (s : json) : bool :=
  match s with
  | JObj fields =>
      isArray (assoc "decks" fields) &&
      (is_null (assoc "selectedDeckId" fields) ||
       typeof_number (assoc "selectedDeckId" fields))
  | _ => false
  end.

End StorageManager.

(** ** String built-ins: [trim], [toLowerCase], [includes] on ASCII text *)

Module Str.

(** White space removed by [trim]: space, tab, line feed, vertical tab, form
    feed and carriage return. *)
Definition is_space (c : Ascii.ascii) : bool :=
  let n := Ascii.nat_of_ascii c in
  Nat.eqb n 32 || (Nat.leb 9 n && Nat.leb n 13).

Fixpoint trim_start (s : string) : string :=
  match s with
  | EmptyString => EmptyString
  | String c rest => if is_space c then trim_start rest else s
  end.

Definition reverse (s : string) : string :=
  string_of_list_ascii (rev (list_ascii_of_string s)).

(** [s.trim()] *)
Definition trim (s : string) : string :=
  reverse (trim_start (reverse (trim_start s))).

Definition lower_char (c : Ascii.ascii) : Ascii.ascii :=
  let n := Ascii.nat_of_ascii c in
  if Nat.leb 65 n && Nat.leb n 90 then Ascii.ascii_of_nat (n + 32) else c.

(** [s.toLowerCase()] *)
Fixpoint toLowerCase (s : string) : string :=
  match s with
  | EmptyString => EmptyString
  | String c rest => String (lower_char c) (toLowerCase rest)
  end.

(** [hay.includes(needle)] *)
Fixpoint includes (hay needle : string) : bool :=
  String.prefix needle hay ||
  match hay with
  | EmptyString => false
  | String _ rest => includes rest needle
  end.

End Str.

(** ** [DeckManager]: the deck registry and its observers *)

Module DeckManager.
Import Json.

(** Object identity: a reference into the heap. *)
Abbreviation loc := nat (only parsing).

(** A heap cell is a deck object (a JSON-shaped tree that is mutated in
    place) or an array of references to deck objects. *)
Inductive cell : Type :=
| Obj (j : json)
| Arr (elems : list loc).

Abbreviation heap := (list cell) (only parsing).

(** Allocation never reuses a reference. *)
Definition alloc (c : cell) (h : heap) : loc * heap :=
  (length h, h ++ [c]).

(** The object a reference points to; [undefined] for a reference that
    points to no object. *)
Definition deref (h : heap) (l : loc) : value :=
  match h !! l with
  | Some (Obj j) => Some j
  | _ => None
  end.

(** The elements of the array at [a]; using something that is not an array
    as one throws. *)
Definition read_arr (h : heap) (a : loc) : result (list loc) :=
  match h !! a with
  | Some (Arr elems) => Ok elems
  | _ => Throw TypeError
  end.

(** Identity of a subscribed callback function. *)
Abbreviation callback := nat (only parsing).

Inductive event : Type :=
| deckCreated
| deckUpdated
| deckDeleted
| deckSelected
| cardAdded
| cardDeleted
| cardUpdated.

(** Event payload: a deck, or [{ deck, card }]. *)
Inductive payload : Type :=
| PDeck (deck : loc)
| PDeckCard (deck : loc) (card : json).

(** The fields of a [DeckManager] instance. *)
Record t : Type := mk {
  decks : loc;
  nextId : Z;
  selectedDeckId : option Z;
  observers : list callback
}.

(** One call [callback(event, data)], with the registry and heap exactly as
    the callback finds them. *)
Record invocation : Type := mkInvocation {
  inv_callback : callback;
  inv_event : event;
  inv_data : payload;
  inv_heap : heap;
  inv_registry : t
}.

(** The registry in its heap.  [calls] is the history of callback invocations
    and [made] the decks built by [createDeck], oldest first; neither is
    read by the code. *)
Record world : Type := mkWorld {
  hp : heap;
  dm : t;
  calls : list invocation;
  made : list loc
}.

Definition set_hp (h : heap) (w : world) : world :=
  mkWorld h (dm w) (calls w) (made w).
Definition set_dm (d : t) (w : world) : world :=
  mkWorld (hp w) d (calls w) (made w).
Definition set_decks (a : loc) (d : t) : t :=
  mk a (nextId d) (selectedDeckId d) (observers d).
Definition set_nextId (n : Z) (d : t) : t :=
  mk (decks d) n (selectedDeckId d) (observers d).
Definition set_selectedDeckId (s : option Z) (d : t) : t :=
  mk (decks d) (nextId d) s (observers d).
Definition set_observers (o : list callback) (d : t) : t :=
  mk (decks d) (nextId d) (selectedDeckId d) o.

(** [deck.id === id] for a number [id]; reading [id] from [null] throws. *)
Definition id_is (h : heap) (id : Z) (l : loc) : result bool :=
  bind (prop (deref h l) "id") (fun v => Ok (strict_eq_num v (inject_Z id))).

(** [xs.findIndex(p)] where [p] may throw; [None] is [-1]. *)
Fixpoint findIndex {A} (p : A -> result bool) (xs : list A)
  : result (option nat) :=
  match xs with
  | [] => Ok None
  | x :: rest =>
      bind (p x) (fun b =>
      if b then Ok (Some 0%nat)
      else bind (findIndex p rest) (fun r => Ok (option_map S r)))
  end.

(** [xs.find(p)] *)
Definition find {A} (p : A -> result bool) (xs : list A)
  : result (option A) :=
  bind (findIndex p xs) (fun r =>
  Ok (match r with Some i => xs !! i | None => None end)).

(** [xs.splice(i, 1)] *)
Definition splice1 {A} (i : nat) (xs : list A) : list A :=
  take i xs ++ drop (S i) xs.

(** The call of callback [c] while the world is [w]. *)
Definition call_in (ev : event) (data : payload) (w : world) (c : callback)
  : invocation :=
  mkInvocation c ev data (hp w) (dm w).

Section WithObservers.

(** Whether a callback throws when called.  The subscriber in this
    repository ([UIManager.handleDeckChange]) renders and saves; it reads the
    registry and does not call back into it. *)
Variable throws : invocation -> bool.

(** [this.observers.forEach((callback) => callback(event, data))]: the first
    exception leaves [forEach]. *)
Fixpoint forEach_call (obs : list callback) (ev : event) (data : payload)
  (w : world) : world * result unit :=
  match obs with
  | [] => (w, Ok tt)
  | c :: rest =>
      let i := call_in ev data w c in
      let w' := mkWorld (hp w) (dm w) (calls w ++ [i]) (made w) in
      if throws i then (w', Throw (Error "thrown by an observer"))
      else forEach_call rest ev data w'
  end.

(** [notifyObservers] *)
Definition notifyObservers (ev : event) (data : payload) (w : world)
  : world * result unit :=
  forEach_call (observers (dm w)) ev data w.

(** The way every mutation ends:
    [this.notifyObservers(ev, data); return x;]. *)
Definition publish {X} (ev : event) (data : payload) (x : X) (w : world)
  : world * result X :=
  let (w', r) := notifyObservers ev data w in
  (w', bind r (fun _ => Ok x)).

(** [subscribe] *)
Definition subscribe (c : callback) (w : world) : world :=
  set_dm (set_observers (observers (dm w) ++ [c]) (dm w)) w.

(** [unsubscribe] *)
Definition unsubscribe (c : callback) (w : world) : world :=
  set_dm (set_observers
            (List.filter (fun obs => negb (Nat.eqb obs c)) (observers (dm w)))
            (dm w)) w.

(** [getAllDecks]: [[...this.decks]] builds a new array. *)
Definition getAllDecks (w : world) : world * result loc :=
  match read_arr (hp w) (decks (dm w)) with
  | Ok elems =>
      let (a, h) := alloc (Arr elems) (hp w) in (set_hp h w, Ok a)
  | Throw e => (w, Throw e)
  end.

(** [getDeckById] *)
Definition getDeckById (id : Z) (w : world) : result (option loc) :=
  bind (read_arr (hp w) (decks (dm w))) (fun elems =>
  find (id_is (hp w) id) elems).

(** [getSelectedDeck]: a selected id of [0] is falsy. *)
Definition getSelectedDeck (w : world) : result (option loc) :=
  match selectedDeckId (dm w) with
  | Some id => if Z.eqb id 0 then Ok None else getDeckById id w
  | None => Ok None
  end.

(** The guard [!name || name.trim() === ""]. *)
Definition blank (name : string) : bool :=
  String.eqb name "" || String.eqb (Str.trim name) "".

(** [createDeck]; [now] is the creation time. *)
Definition createDeck (name : string) (now : string) (w : world)
  : world * result loc :=
  if blank name then (w, Throw (Error "Deck name cannot be empty"))
  else
    let id := nextId (dm w) in
    let w1 := set_dm (set_nextId (id + 1) (dm w)) w in
    let newDeck :=
      JObj [ ("id", JNum (inject_Z id));
             ("name", JStr (Str.trim name));
             ("cards", JArr []);
             ("createdAt", JStr now) ] in
    let (l, h) := alloc (Obj newDeck) (hp w1) in
    let w2 := mkWorld h (dm w1) (calls w1) (made w1 ++ [l]) in
    match read_arr (hp w2) (decks (dm w2)) with
    | Throw e => (w2, Throw e)
    | Ok elems =>
        let w3 :=
          set_hp (<[decks (dm w2) := Arr (elems ++ [l])]> (hp w2)) w2 in
        publish deckCreated (PDeck l) l w3
    end.

(** Write [fields] back into the deck object at [l]. *)
Definition store_fields (l : loc) (fields : list (string * json)) (w : world)
  : world :=
  set_hp (<[l := Obj (JObj fields)]> (hp w)) w.

(** [updateDeck]; [name] is [updates.name], [None] when it is [undefined]. *)
Definition updateDeck (id : Z) (name : option string) (w : world)
  : world * result loc :=
  match getDeckById id w with
  | Throw e => (w, Throw e)
  | Ok None => (w, Throw (Error "Deck not found"))
  | Ok (Some l) =>
      match name with
      | Some n =>
          if blank n then (w, Throw (Error "Deck name cannot be empty"))
          else
            match deref (hp w) l with
            | Some (JObj fields) =>
                let w1 :=
                  store_fields l (set_field "name" (JStr (Str.trim n)) fields) w
                in
                publish deckUpdated (PDeck l) l w1
            | _ => (w, Throw TypeError)
            end
      | None =>
          publish deckUpdated (PDeck l) l w
      end
  end.

(** [deleteDeck] *)
Definition deleteDeck (id : Z) (w : world) : world * result loc :=
  match read_arr (hp w) (decks (dm w)) with
  | Throw e => (w, Throw e)
  | Ok elems =>
      match findIndex (id_is (hp w) id) elems with
      | Throw e => (w, Throw e)
      | Ok None => (w, Throw (Error "Deck not found"))
      | Ok (Some index) =>
          match elems !! index with
          | None => (w, Throw TypeError)
          | Some deletedDeck =>
              let w1 :=
                set_hp (<[decks (dm w) := Arr (splice1 index elems)]> (hp w)) w
              in
              let w2 :=
                match selectedDeckId (dm w1) with
                | Some s =>
                    if Z.eqb s id
                    then set_dm (set_selectedDeckId None (dm w1)) w1
                    else w1
                | None => w1
                end in
              publish deckDeleted (PDeck deletedDeck) deletedDeck w2
          end
      end
  end.

(** [selectDeck] *)
Definition selectDeck (id : Z) (w : world) : world * result loc :=
  match getDeckById id w with
  | Throw e => (w, Throw e)
  | Ok None => (w, Throw (Error "Deck not found"))
  | Ok (Some l) =>
      let w1 := set_dm (set_selectedDeckId (Some id) (dm w)) w in
      publish deckSelected (PDeck l) l w1
  end.

(** [cardData.front || ""] *)
Definition text_or_empty (s : option string) : string :=
  match s with
  | Some x => x
  | None => ""
  end.

(** [addCardToDeck]; [cardId] is the generated
    [card-<time>-<random>] identifier. *)
Definition addCardToDeck (deckId : Z) (front back : option string)
  (cardId now : string) (w : world) : world * result json :=
  match getDeckById deckId w with
  | Throw e => (w, Throw e)
  | Ok None => (w, Throw (Error "Deck not found"))
  | Ok (Some l) =>
      let card :=
        JObj [ ("id", JStr cardId);
               ("front", JStr (text_or_empty front));
               ("back", JStr (text_or_empty back));
               ("createdAt", JStr now) ] in
      match deref (hp w) l with
      | Some (JObj fields) =>
          match assoc "cards" fields with
          | Some (JArr cs) =>
              let w1 :=
                store_fields l
                  (set_field "cards" (JArr (cs ++ [card])) fields) w
              in
              publish cardAdded (PDeckCard l card) card w1
          | _ => (w, Throw TypeError)
          end
      | _ => (w, Throw TypeError)
      end
  end.

(** [c.id === cardId] for a string [cardId]. *)
Definition card_id_is (cardId : string) (c : json) : result bool :=
  bind (prop (Some c) "id") (fun v =>
  Ok (match v with
      | Some (JStr s) => String.eqb s cardId
      | _ => false
      end)).

(** [deleteCardFromDeck] *)
Definition deleteCardFromDeck (deckId : Z) (cardId : string) (w : world)
  : world * result json :=
  match getDeckById deckId w with
  | Throw e => (w, Throw e)
  | Ok None => (w, Throw (Error "Deck not found"))
  | Ok (Some l) =>
      match deref (hp w) l with
      | Some (JObj fields) =>
          match assoc "cards" fields with
          | Some (JArr cs) =>
              match findIndex (card_id_is cardId) cs with
              | Throw e => (w, Throw e)
              | Ok None => (w, Throw (Error "Card not found"))
              | Ok (Some cardIndex) =>
                  match cs !! cardIndex with
                  | None => (w, Throw TypeError)
                  | Some deletedCard =>
                      let w1 :=
                        store_fields l
                          (set_field "cards" (JArr (splice1 cardIndex cs))
                             fields)
                          w in
                      publish cardDeleted (PDeckCard l deletedCard)
                        deletedCard w1
                  end
              end
          | _ => (w, Throw TypeError)
          end
      | _ => (w, Throw TypeError)
      end
  end.

(** A call a client of the registry can make. *)
Inductive op : Type :=
| OpCreate (name now : string)
| OpUpdate (id : Z) (name : option string)
| OpDelete (id : Z)
| OpSelect (id : Z)
| OpAddCard (deckId : Z) (front back : option string) (cardId now : string)
| OpDeleteCard (deckId : Z) (cardId : string)
| OpGetAll
| OpSubscribe (c : callback)
| OpUnsubscribe (c : callback).

(** Run one call; an exception it throws is the caller's to handle and the
    registry lives on. *)
Definition run_op (o : op) (w : world) : world :=
  match o with
  | OpCreate name now => fst (createDeck name now w)
  | OpUpdate id name => fst (updateDeck id name w)
  | OpDelete id => fst (deleteDeck id w)
  | OpSelect id => fst (selectDeck id w)
  | OpAddCard d f b c now => fst (addCardToDeck d f b c now w)
  | OpDeleteCard d c => fst (deleteCardFromDeck d c w)
  | OpGetAll => fst (getAllDecks w)
  | OpSubscribe c => subscribe c w
  | OpUnsubscribe c => unsubscribe c w
  end.

(** A lifetime of the registry: calls in sequence. *)
Definition run_ops (os : list op) (w : world) : world :=
  fold_left (fun w o => run_op o w) os w.

End WithObservers.

(** A deck of [loadInitialDecks]. *)
Definition sampleDeck (id : Z) (name now : string) : json :=
  JObj [ ("id", JNum (inject_Z id));
         ("name", JStr name);
         ("cards", JArr []);
         ("createdAt", JStr now) ].

(** [new DeckManager()]: no deck, counter 1, no selection, no observers, and
    then [loadInitialDecks], which puts three sample decks in place and sets
    [nextId] to 4. *)
Definition constructor (now : string) : world :=
  mkWorld
    [ Obj (sampleDeck 1 "Spanish Vocabulary" now);
      Obj (sampleDeck 2 "Biology Terms" now);
      Obj (sampleDeck 3 "JavaScript Concepts" now);
      Arr [0; 1; 2]%nat ]
    (mk 3%nat 4 None [])
    [] [].

(** What [getAllDecks] followed by reading every deck shows: the deck objects
    of the collection, in order. *)
Definition contents (h : heap) (a : loc) : option (list value) :=
  match h !! a with
  | Some (Arr elems) => Some (map (deref h) elems)
  | _ => None
  end.

(** The [id] of the deck object at [l]. *)
Definition id_of (h : heap) (l : loc) : value :=
  match deref h l with
  | Some (JObj fields) => assoc "id" fields
  | _ => None
  end.

(** The callbacks [forEach] gets to call: each in turn, up to and including
    the first one that throws. *)
Fixpoint reached (throwing : callback -> bool) (obs : list callback)
  : list callback :=
  match obs with
  | [] => []
  | c :: rest => if throwing c then [c] else c :: reached throwing rest
  end.

(** The calls made between two states of the world. *)
Definition new_calls (before after : world) : list invocation :=
  drop (length (calls before)) (calls after).

(** How often callback [c] is called in a list of calls. *)
Definition times_called (c : callback) (l : list invocation) : nat :=
  length (List.filter (fun i => Nat.eqb (inv_callback i) c) l).



End DeckManager.

(** ** [UIManager]: restoring the registry from storage, and study mode *)

Module UIManager.
Import Json DeckManager.

(** [this.deckManager.decks = JSON.parse(JSON.stringify(savedState.decks))]:
    a new array of new deck objects. *)
Definition assign_decks (ds : list json) (w : world) : world :=
  let first := length (hp w) in
  let h1 := hp w ++ map Obj ds in
  let a := length h1 in
  let h2 := h1 ++ [Arr (seq first (length ds))] in
  set_dm (set_decks a (dm w)) (set_hp h2 w).

(** The integer a whole rational stands for. *)
Definition to_Z (v : value) : Z :=
  match v with
  | Some (JNum q) => Qfloor q
  | _ => 0
  end.

(** [Math.max(...deckIds)] of a non-empty list. *)
Definition maximum (x : Z) (xs : list Z) : Z := fold_left Z.max xs x.

(** [deckIds.length > 0 ? Math.max(...deckIds) + 1 : 1] *)
Definition next_after (deckIds : list Z) : Z :=
  match deckIds with
  | [] => 1
  | x :: xs => maximum x xs + 1
  end.

(** The statements of [loadPersistedState] inside the [if], after the decks
    have been assigned.  An exception leaves through the [catch] with the
    registry as it then is. *)
Definition restore_counter_and_selection (savedState : json) (w : world)
  : world :=
  match read_arr (hp w) (decks (dm w)) with
  | Throw _ => w
  | Ok elems =>
      match mapM (fun d => prop (deref (hp w) d) "id") elems with
      | Throw _ => w
      | Ok ids =>
          let deckIds := map to_Z (List.filter isInteger ids) in
          let w1 := set_dm (set_nextId (next_after deckIds) (dm w)) w in
          match prop (Some savedState) "selectedDeckId" with
          | Throw _ => w1
          | Ok sel =>
              if truthy sel && isInteger sel then
                match getDeckById (to_Z sel) w1 with
                | Ok (Some _) =>
                    set_dm (set_selectedDeckId (Some (to_Z sel)) (dm w1)) w1
                | _ => w1
                end
              else w1
          end
      end
  end.

(** The body of [loadPersistedState] once [storage.loadState()] has
    returned [savedState]. *)
Definition restore (savedState : json) (w : world) : world :=
  match prop (Some savedState) "decks" with
  | Ok (Some (JArr ds)) =>
      restore_counter_and_selection savedState (assign_decks ds w)
  | _ => w
  end.

(** [loadPersistedState] *)
Definition loadPersistedState
  (JSON_parse : string -> option json) (now : string)
  (StringToNumber : string -> option Q) (ObjectToString : json -> string)
  (ls : StorageManager.localStorage) (w : world) : world :=
  match StorageManager.loadState JSON_parse now StringToNumber ObjectToString ls
  with
  | Ok savedState => restore savedState w
  | Throw _ => w
  end.



(** *** Study mode *)

(** Equality of two values used as keys of a [Map] or members of a [Set]. *)
Fixpoint json_eqb (a b : json) : bool :=
  match a, b with
  | JNull, JNull => true
  | JBool x, JBool y => Bool.eqb x y
  | JNum x, JNum y => Qeq_bool x y
  | JStr x, JStr y => String.eqb x y
  | JArr xs, JArr ys =>
      (fix all2 (xs ys : list json) : bool :=
         match xs, ys with
         | [], [] => true
         | x :: xs', y :: ys' => json_eqb x y && all2 xs' ys'
         | _, _ => false
         end) xs ys
  | JObj xs, JObj ys =>
      (fix all2 (xs ys : list (string * json)) : bool :=
         match xs, ys with
         | [], [] => true
         | (k, x) :: xs', (k', y) :: ys' =>
             String.eqb k k' && json_eqb x y && all2 xs' ys'
         | _, _ => false
         end) xs ys
  | _, _ => false
  end.

Definition same_key (a b : value) : bool :=
  match a, b with
  | None, None => true
  | Some x, Some y => json_eqb x y
  | _, _ => false
  end.

(** [this.studyMode] *)
Record studyMode : Type := mkStudy {
  active : bool;
  deckId : Z;
  currentIndex : Z;
  startTime : Z;
  cardsStudied : list value
}.

(** The fields of [UIManager] that study mode touches.  [announced] collects
    the screen-reader messages. *)
Record t : Type := mkUI {
  study : option studyMode;
  cardFlipState : list (value * bool);
  announced : list Z
}.

Definition set_index (i : Z) (s : studyMode) : studyMode :=
  mkStudy (active s) (deckId s) i (startTime s) (cardsStudied s).

(** [set.add(k)] *)
Definition set_add (k : value) (s : list value) : list value :=
  if existsb (same_key k) s then s else s ++ [k].

(** [map.has(k)] and [map.delete(k)] *)
Definition map_has (k : value) (m : list (value * bool)) : bool :=
  existsb (fun e => same_key k (fst e)) m.
Definition map_delete (k : value) (m : list (value * bool))
  : list (value * bool) :=
  List.filter (fun e => negb (same_key k (fst e))) m.

(** [deck.cards] of the deck object at [l], as an array. *)
Definition cards_of (w : world) (l : loc) : result (list json) :=
  bind (prop (deref (hp w) l) "cards") (fun cards =>
  match cards with
  | Some (JArr cs) => Ok cs
  | _ => Throw TypeError
  end).

(** [deck.cards[i]]; out of range is [undefined]. *)
Definition card_at (cs : list json) (i : Z) : value :=
  if Z.ltb i 0 then None else cs !! Z.to_nat i.

(** The part of [renderStudyModeCard] that reads and writes state: it reads
    the current card's [id] and marks the card as studied. *)
Definition renderStudyModeCard (w : world) (s : studyMode) (u : t)
  : t * result unit :=
  match getDeckById (deckId s) w with
  | Throw e => (u, Throw e)
  | Ok None => (u, Ok tt)
  | Ok (Some l) =>
      match cards_of w l with
      | Throw e => (u, Throw e)
      | Ok cs =>
          match prop (card_at cs (currentIndex s)) "id" with
          | Throw e => (u, Throw e)
          | Ok id =>
              let s' := mkStudy (active s) (deckId s) (currentIndex s)
                          (startTime s) (set_add id (cardsStudied s)) in
              (mkUI (Some s') (cardFlipState u) (announced u), Ok tt)
          end
      end
  end.

(** The common shape of [studyModeNext] and [studyModePrevious]; [move] is
    the index arithmetic of the one or the other. *)
Definition navigate (move : Z -> Z -> Z) (w : world) (u : t)
  : t * result unit :=
  match study u with
  | None => (u, Ok tt)
  | Some s =>
      if negb (active s) then (u, Ok tt)
      else
        match getDeckById (deckId s) w with
        | Throw e => (u, Throw e)
        | Ok None => (u, Ok tt)
        | Ok (Some l) =>
            match cards_of w l with
            | Throw e => (u, Throw e)
            | Ok cs =>
                let deckLength := Z.of_nat (length cs) in
                if Z.eqb deckLength 0 then (u, Ok tt)
                else
                  let i := currentIndex s in
                  let i0 :=
                    if Z.ltb i 0 || Z.leb deckLength i then 0%Z else i in
                  let s1 := set_index (move i0 deckLength) s in
                  let u1 := mkUI (Some s1) (cardFlipState u) (announced u) in
                  match prop (card_at cs (currentIndex s1)) "id" with
                  | Throw e => (u1, Throw e)
                  | Ok id =>
                      let u2 :=
                        if map_has id (cardFlipState u1)
                        then mkUI (study u1)
                               (map_delete id (cardFlipState u1)) (announced u1)
                        else u1 in
                      match renderStudyModeCard w s1 u2 with
                      | (u3, Throw e) => (u3, Throw e)
                      | (u3, Ok _) =>
                          (mkUI (study u3) (cardFlipState u3)
                             (announced u3 ++ [(currentIndex s1 + 1)%Z]),
                           Ok tt)
                      end
                  end
            end
        end
  end.

(** [studyModePrevious]: [(currentIndex - 1 + deckLength) % deckLength] *)
Definition studyModePrevious : world -> t -> t * result unit :=
  navigate (fun i deckLength => Z.rem (i - 1 + deckLength) deckLength)%Z.

(** [studyModeNext]: [(currentIndex + 1) % deckLength] *)
Definition studyModeNext : world -> t -> t * result unit :=
  navigate (fun i deckLength => Z.rem (i + 1) deckLength)%Z.

(** [currentIndex] of the session, if there is one. *)
Definition index_of (u : t) : option Z :=
  option_map currentIndex (study u).

End UIManager.

(** ** [SearchManager]: debounced card search *)

Module SearchManager.
Import Json DeckManager.

(** What the debounce timer will do when it fires: hand all cards to the
    callback, or filter them first. *)
Inductive timer : Type :=
| ReturnAll (cards : loc)
| Filter (cards : loc) (query : string).

(** The fields of a [SearchManager]; [debounceTimer] is the one live
    timer, if any. *)
Record t : Type := mkSearch {
  debounceDelay : Z;
  debounceTimer : option timer
}.

(** [search]: [clearTimeout] drops the pending timer and a new one is set. *)
Definition search (cards : loc) (query : string) (s : t) : t :=
  if String.eqb query "" || String.eqb (Str.trim query) ""
  then mkSearch (debounceDelay s) (Some (ReturnAll cards))
  else mkSearch (debounceDelay s) (Some (Filter cards query)).

(** [(card.front || "").toLowerCase()]: only a string has [toLowerCase]. *)
Definition lowered (card : value) (k : string) : result string :=
  bind (prop card k) (fun v =>
  match or_else v (JStr "") with
  | JStr s => Ok (Str.toLowerCase s)
  | _ => Throw TypeError
  end).

(** The predicate of [filterCards] for one card. *)
Definition matches (h : heap) (normalizedQuery : string) (c : loc)
  : result bool :=
  bind (lowered (deref h c) "front") (fun front =>
  bind (lowered (deref h c) "back") (fun back =>
  Ok (Str.includes front normalizedQuery
      || Str.includes back normalizedQuery))).

(** [xs.filter(p)] where [p] may throw. *)
Fixpoint filterM {A} (p : A -> result bool) (xs : list A) : result (list A) :=
  match xs with
  | [] => Ok []
  | x :: rest =>
      bind (p x) (fun b =>
      bind (filterM p rest) (fun ys => Ok (if b then x :: ys else ys)))
  end.

(** [filterCards]: the result is a new array. *)
Definition filterCards (cards : loc) (query : string) (h : heap)
  : heap * result loc :=
  let normalizedQuery := Str.trim (Str.toLowerCase query) in
  match read_arr h cards with
  | Throw e => (h, Throw e)
  | Ok elems =>
      match filterM (matches h normalizedQuery) elems with
      | Throw e => (h, Throw e)
      | Ok kept => let (a, h') := alloc (Arr kept) h in (h', Ok a)
      end
  end.

(** [xs.length] of the array at [a]. *)
Definition arr_length (h : heap) (a : loc) : result nat :=
  bind (read_arr h a) (fun elems => Ok (length elems)).

(** The timer fires: the heap afterwards and the arguments
    [(filteredCards, matchCount)] the callback is called with. *)
Definition fire (tm : timer) (h : heap) : heap * result (loc * nat) :=
  match tm with
  | ReturnAll cards =>
      (h, bind (arr_length h cards) (fun n => Ok (cards, n)))
  | Filter cards query =>
      match filterCards cards query h with
      | (h', Throw e) => (h', Throw e)
      | (h', Ok filteredCards) =>
          (h', bind (arr_length h' filteredCards) (fun n =>
               Ok (filteredCards, n)))
      end
  end.

(** A settled search: [search] followed by its timer firing. *)
Definition settled (cards : loc) (query : string) (s : t) (h : heap)
  : heap * result (loc * nat) :=
  match debounceTimer (search cards query s) with
  | Some tm => fire tm h
  | None => (h, Throw (Error "no timer"))
  end.

(** A card as the registry builds it: an object whose [front] and [back] are
    strings or absent. *)
Definition text_field (k : string) (fields : list (string * json)) : Prop :=
  match assoc k fields with
  | None => True
  | Some (JStr _) => True
  | Some _ => False
  end.

Definition is_card (v : value) : Prop :=
  match v with
  | Some (JObj fields) => text_field "front" fields /\ text_field "back" fields
  | _ => False
  end.

(** The text of a field, [""] when it is absent. *)
Definition text (v : value) (k : string) : string :=
  match v with
  | Some (JObj fields) =>
      match assoc k fields with
      | Some (JStr s) => s
      | _ => ""
      end
  | _ => ""
  end.

(** The match the code computes: the lower-cased field contains the
    lower-cased and trimmed query. *)
Definition contains_trimmed (h : heap) (query : string) (c : loc) : bool :=
  let q := Str.trim (Str.toLowerCase query) in
  Str.includes (Str.toLowerCase (text (deref h c) "front")) q
  || Str.includes (Str.toLowerCase (text (deref h c) "back")) q.

(** The match as the specification words it: the lower-cased field contains
    the lower-cased query. *)
Definition contains_query_spec (h : heap) (query : string) (c : loc) : bool :=
  let q := Str.toLowerCase query in
  Str.includes (Str.toLowerCase (text (deref h c) "front")) q
  || Str.includes (Str.toLowerCase (text (deref h c) "back")) q.

End SearchManager.

(** ** The modal dialog and its focus trap *)

Module Dom.

Inductive tag : Type :=
| A | BUTTON | TEXTAREA | INPUT | SELECT | OTHER.

(** An element inside the modal, with the attributes and computed style the
    focus trap looks at. *)
Record element : Type := mkElement {
  node : nat;
  tagName : tag;
  href : bool;
  type_attr : option string;
  disabled : bool;
  tabindex : option string;
  offsetParent_null : bool;
  visibility_hidden : bool;
  display_none : bool
}.

(** A [keydown] event. *)
Record keydown : Type := mkKey {
  key : string;
  shiftKey : bool
}.

(** What a modal instance has done, in order.  A focus move records whether
    the trap was active and the key listener attached at that moment. *)
Inductive action : Type :=
| Show
| Hide
| Activate
| Deactivate
| Listen
| Unlisten
| LockScroll
| UnlockScroll
| Focus (target : nat) (trapActive listening : bool)
| ScheduleFocus (target : nat)
| PreventDefault
| Announce (msg : string).

(** A modal instance together with the parts of the document it acts on:
    whether [handleKeyDown] is attached to [document], which node has focus,
    whether the modal is displayed, focus moves deferred with [setTimeout]. *)
Record modal : Type := mkModal {
  container : nat;
  focusTrapActive : bool;
  previouslyFocusedElement : option nat;
  focusableElements : list element;
  listening : bool;
  activeElement : option nat;
  displayed : bool;
  scrollLocked : bool;
  deferred : list nat;
  history : list action
}.

Definition log (a : action) (m : modal) : modal :=
  mkModal (container m) (focusTrapActive m) (previouslyFocusedElement m)
    (focusableElements m) (listening m) (activeElement m) (displayed m)
    (scrollLocked m) (deferred m) (history m ++ [a]).

(** [this.previouslyFocusedElement = x] *)
Definition set_previous (x : option nat) (m : modal) : modal :=
  mkModal (container m) (focusTrapActive m) x
    (focusableElements m) (listening m) (activeElement m) (displayed m)
    (scrollLocked m) (deferred m) (history m).

(** [this.focusableElements = xs] *)
Definition set_focusable (xs : list element) (m : modal) : modal :=
  mkModal (container m) (focusTrapActive m) (previouslyFocusedElement m)
    xs (listening m) (activeElement m) (displayed m)
    (scrollLocked m) (deferred m) (history m).

(** [this.focusTrapActive = b] *)
Definition set_active (b : bool) (m : modal) : modal :=
  log (if b then Activate else Deactivate)
    (mkModal (container m) b (previouslyFocusedElement m)
       (focusableElements m) (listening m) (activeElement m) (displayed m)
       (scrollLocked m) (deferred m) (history m)).

(** [document.addEventListener("keydown", this.handleKeyDown)] and
    [removeEventListener]: the same bound function is attached at most
    once. *)
Definition set_listening (b : bool) (m : modal) : modal :=
  log (if b then Listen else Unlisten)
    (mkModal (container m) (focusTrapActive m) (previouslyFocusedElement m)
       (focusableElements m) b (activeElement m) (displayed m)
       (scrollLocked m) (deferred m) (history m)).

(** [this.modal.style.display = ...] with the matching [aria-hidden]. *)
Definition set_displayed (b : bool) (m : modal) : modal :=
  log (if b then Show else Hide)
    (mkModal (container m) (focusTrapActive m) (previouslyFocusedElement m)
       (focusableElements m) (listening m) (activeElement m) b
       (scrollLocked m) (deferred m) (history m)).

(** [document.body.style.overflow = ...] *)
Definition set_scrollLocked (b : bool) (m : modal) : modal :=
  log (if b then LockScroll else UnlockScroll)
    (mkModal (container m) (focusTrapActive m) (previouslyFocusedElement m)
       (focusableElements m) (listening m) (activeElement m) (displayed m)
       b (deferred m) (history m)).

(** [x.focus()] *)
Definition focus (x : nat) (m : modal) : modal :=
  log (Focus x (focusTrapActive m) (listening m))
    (mkModal (container m) (focusTrapActive m) (previouslyFocusedElement m)
       (focusableElements m) (listening m) (Some x) (displayed m)
       (scrollLocked m) (deferred m) (history m)).

(** [setTimeout(() => x.focus(), 0)] *)
Definition defer_focus (x : nat) (m : modal) : modal :=
  log (ScheduleFocus x)
    (mkModal (container m) (focusTrapActive m) (previouslyFocusedElement m)
       (focusableElements m) (listening m) (activeElement m) (displayed m)
       (scrollLocked m) (deferred m ++ [x]) (history m)).

(** [e.preventDefault()] *)
Definition preventDefault (m : modal) : modal := log PreventDefault m.

(** [announceToScreenReader] *)
Definition announce (msg : string) (m : modal) : modal := log (Announce msg) m.

Definition has_tabindex_other_than_minus_one (x : element) : bool :=
  match tabindex x with
  | Some v => negb (String.eqb v "-1")
  | None => false
  end.

Definition not_tabindex_minus_one (x : element) : bool :=
  match tabindex x with
  | Some v => negb (String.eqb v "-1")
  | None => true
  end.

Definition input_of_type (x : element) (ty : string) : bool :=
  match tagName x, type_attr x with
  | INPUT, Some v => String.eqb v ty
  | _, _ => false
  end.

Definition is_tag (x : element) (tg : tag) : bool :=
  match tagName x, tg with
  | A, A | BUTTON, BUTTON | TEXTAREA, TEXTAREA | INPUT, INPUT
  | SELECT, SELECT | OTHER, OTHER => true
  | _, _ => false
  end.

(** [document.activeElement === x] *)
Definition has_focus (m : modal) (x : element) : bool :=
  match activeElement m with
  | Some n => Nat.eqb n (node x)
  | None => false
  end.

(** What happened since [before]. *)
Definition since (before after : modal) : list action :=
  drop (length (history before)) (history after).

End Dom.

(** *** [AccessibleModal] as embedded in [app.js] *)

Module AccessibleModal.
Import Dom.

(** The selector list of [getFocusableElements]. *)
Definition matches_selector (x : element) : bool :=
  (is_tag x A && href x && not_tabindex_minus_one x)
  || (is_tag x BUTTON && negb (disabled x) && not_tabindex_minus_one x)
  || (is_tag x TEXTAREA && negb (disabled x) && not_tabindex_minus_one x)
  || (input_of_type x "text" && negb (disabled x) && not_tabindex_minus_one x)
  || (input_of_type x "radio" && negb (disabled x) && not_tabindex_minus_one x)
  || (input_of_type x "checkbox" && negb (disabled x)
      && not_tabindex_minus_one x)
  || (is_tag x SELECT && negb (disabled x) && not_tabindex_minus_one x)
  || has_tabindex_other_than_minus_one x.

(** The visibility filter. *)
Definition visible (x : element) : bool :=
  negb (offsetParent_null x) && negb (visibility_hidden x)
  && negb (display_none x).

(** [getFocusableElements]; [dom] is what the modal contains, in document
    order, at the time of the call. *)
Definition getFocusableElements (dom : list element) : list element :=
  List.filter visible (List.filter matches_selector dom).

(** [trapFocus] *)
Definition trapFocus (dom : list element) (e : keydown) (m : modal) : modal :=
  if String.eqb (key e) "Tab" then
    let m1 := set_focusable (getFocusableElements dom) m in
    match focusableElements m1 with
    | [] => preventDefault m1
    | firstElement :: _ =>
        let lastElement := List.last (focusableElements m1) firstElement in
        if shiftKey e then
          if has_focus m1 firstElement
          then focus (node lastElement) (preventDefault m1)
          else m1
        else
          if has_focus m1 lastElement
          then focus (node firstElement) (preventDefault m1)
          else m1
    end
  else m.

(** [close] *)
Definition close (m : modal) : modal :=
  let m1 := set_active false m in
  let m2 := set_listening false m1 in
  let m3 := set_displayed false m2 in
  let m4 := set_scrollLocked false m3 in
  let m5 :=
    match previouslyFocusedElement m4 with
    | Some x => defer_focus x m4
    | None => m4
    end in
  announce "Dialog closed" m5.

(** [handleKeyDown] *)
Definition handleKeyDown (dom : list element) (e : keydown) (m : modal)
  : modal :=
  if negb (focusTrapActive m) then m
  else if String.eqb (key e) "Escape" then close (preventDefault m)
  else if String.eqb (key e) "Tab" then trapFocus dom e m
  else m.

(** [el.tagName === "INPUT" || el.tagName === "TEXTAREA"] *)
Definition is_text_entry (x : element) : bool :=
  is_tag x INPUT || is_tag x TEXTAREA.

(** [open] *)
Definition open (dom : list element) (triggerElement : option nat)
  (m : modal) : modal :=
  let m1 :=
    set_previous
      (match triggerElement with
       | Some x => Some x
       | None => activeElement m
       end) m in
  let m2 := set_focusable (getFocusableElements dom) m1 in
  let m3 := set_displayed true m2 in
  let m4 := set_active true m3 in
  let m5 := set_listening true m4 in
  let m6 := set_scrollLocked true m5 in
  let m7 :=
    match focusableElements m6 with
    | firstElement :: _ =>
        match List.find is_text_entry (focusableElements m6) with
        | Some inputElement => focus (node inputElement) m6
        | None => focus (node firstElement) m6
        end
    | [] => focus (container m6) m6
    end in
  announce "Dialog opened" m7.

(** A key press reaches [handleKeyDown] only while it is attached. *)
Definition press (dom : list element) (e : keydown) (m : modal) : modal :=
  if listening m then handleKeyDown dom e m else m.

End AccessibleModal.

(** *** [AccessibleModal] as the stand-alone modal component *)

Module ModalComponent.
Import Dom.

(** The selector list of [getFocusableElements]. *)
Definition matches_selector (x : element) : bool :=
  (is_tag x A && href x)
  || (is_tag x BUTTON && negb (disabled x))
  || (is_tag x TEXTAREA && negb (disabled x))
  || (input_of_type x "text" && negb (disabled x))
  || (input_of_type x "radio" && negb (disabled x))
  || (input_of_type x "checkbox" && negb (disabled x))
  || (is_tag x SELECT && negb (disabled x))
  || has_tabindex_other_than_minus_one x.

(** [getFocusableElements] *)
Definition getFocusableElements (dom : list element) : list element :=
  List.filter matches_selector dom.

(** [trapFocus]: works from the list stored by [open]. *)
Definition trapFocus (e : keydown) (m : modal) : modal :=
  let focusableElements := focusableElements m in
  let firstElement := List.head focusableElements in
  let lastElement := List.last (map Some focusableElements) None in
  if String.eqb (key e) "Tab" then
    if shiftKey e then
      match firstElement, lastElement with
      | Some f, Some l =>
          if has_focus m f then focus (node l) (preventDefault m) else m
      | _, _ => m
      end
    else
      match firstElement, lastElement with
      | Some f, Some l =>
          if has_focus m l then focus (node f) (preventDefault m) else m
      | _, _ => m
      end
  else m.

(** [close] *)
Definition close (m : modal) : modal :=
  let m1 := set_displayed false m in
  let m2 := set_listening false m1 in
  let m3 := set_active false m2 in
  let m4 := set_scrollLocked false m3 in
  let m5 :=
    match previouslyFocusedElement m4 with
    | Some x => focus x m4
    | None => m4
    end in
  announce "Dialog closed" m5.

(** [handleKeyDown] *)
Definition handleKeyDown (e : keydown) (m : modal) : modal :=
  if String.eqb (key e) "Escape" then close (preventDefault m)
  else
    match focusableElements m with
    | [] => m
    | _ :: _ => trapFocus e m
    end.

(** [open] *)
Definition open (dom : list element) (triggerElement : option nat)
  (m : modal) : modal :=
  let m1 :=
    set_previous
      (match triggerElement with
       | Some x => Some x
       | None => activeElement m
       end) m in
  let m2 := set_focusable (getFocusableElements dom) m1 in
  let m3 := set_displayed true m2 in
  let m4 :=
    match focusableElements m3 with
    | firstElement :: _ => focus (node firstElement) m3
    | [] => focus (container m3) m3
    end in
  let m5 := set_listening true m4 in
  let m6 := set_active true m5 in
  let m7 := set_scrollLocked true m6 in
  announce "Dialog opened" m7.

(** A key press reaches [handleKeyDown] only while it is attached. *)
Definition press (e : keydown) (m : modal) : modal :=
  if listening m then handleKeyDown e m else m.

End ModalComponent.

(** ** Concrete inputs used by the examples below *)

Module Samples.
Import Json.
Local Open Scope nat_scope.

(** JSON texts are written below with an apostrophe where the text has a
    double quote. *)
Definition requote_char (c : Ascii.ascii) : Ascii.ascii :=
  if Ascii.eqb c "039"%char then "034"%char else c.

Fixpoint requote (s : string) : string :=
  match s with
  | EmptyString => EmptyString
  | String c rest => String (requote_char c) (requote rest)
  end.

(** A stored snapshot whose [selectedDeckId] is the number 1.5. *)
Definition fractional_text : string :=
  requote "{'version':1,'decks':[],'selectedDeckId':1.5}".

Definition fractional_snapshot : json :=
  JObj [ ("version", JNum 1);
         ("decks", JArr []);
         ("selectedDeckId", JNum (3 # 2)) ].

(** A stored snapshot of an older version with one deck that lacks
    [cards]. *)
Definition legacy_text : string :=
  requote "{'decks':[{'id':7,'name':'Verbs'}],'selectedDeckId':7}".

Definition legacy_snapshot : json :=
  JObj [ ("decks", JArr [ JObj [ ("id", JNum 7); ("name", JStr "Verbs") ] ]);
         ("selectedDeckId", JNum 7) ].

(** A stored snapshot whose first deck entry is [null]. *)
Definition null_entry_text : string :=
  requote
    ("{'version':1,'decks':[null,{'id':4,'name':'Verbs','cards':[]}],"
     ++ "'selectedDeckId':null}")%string.

Definition null_entry_snapshot : json :=
  JObj [ ("version", JNum 1);
         ("decks",
          JArr [ JNull;
                 JObj [ ("id", JNum 4); ("name", JStr "Verbs");
                        ("cards", JArr []) ] ]);
         ("selectedDeckId", JNull) ].

(** What [loadState] makes of the legacy snapshot. *)
Definition legacy_decks : list json :=
  [ JObj [ ("id", JNum 7); ("name", JStr "Verbs"); ("cards", JArr []);
           ("createdAt", JStr "2026-02-05T10:00:00.000Z") ] ].

Definition legacy_migrated : json :=
  JObj [ ("decks", JArr legacy_decks);
         ("selectedDeckId", JNum 7);
         ("version", JNum 1) ].

(** [JSON.parse] on the texts above; any other text is taken as not being
    JSON. *)
Definition parse (text : string) : option json :=
  if String.eqb text fractional_text then Some fractional_snapshot
  else if String.eqb text legacy_text then Some legacy_snapshot
  else if String.eqb text null_entry_text then Some null_entry_snapshot
  else None.

Definition clock : string := "2026-02-05T10:00:00.000Z".

(** String-to-number and object-to-string conversions are not exercised by
    the samples. *)
Definition no_number (_ : string) : option Q := None.
Definition object_text (_ : json) : string := "[object Object]".

(** Observers: one that never throws, and one under which callback 0
    throws. *)
Definition quiet (_ : DeckManager.invocation) : bool := false.
Definition first_throws (i : DeckManager.invocation) : bool :=
  Nat.eqb (DeckManager.inv_callback i) 0.

(** The registry as constructed, with callbacks 0 and 1 subscribed in that
    order. *)
Definition two_observers : DeckManager.world :=
  DeckManager.subscribe 1
    (DeckManager.subscribe 0 (DeckManager.constructor clock)).

(** The registry as constructed, with three cards added to deck 1. *)
Definition three_cards : DeckManager.world :=
  DeckManager.run_ops quiet
    [ DeckManager.OpAddCard 1 (Some "hola") (Some "hello") "card-1-a" clock;
      DeckManager.OpAddCard 1 (Some "adios") (Some "goodbye") "card-2-b" clock;
      DeckManager.OpAddCard 1 (Some "gracias") (Some "thanks") "card-3-c"
        clock ]
    (DeckManager.constructor clock).

(** A study session over deck 1, at its last card. *)
Definition studying : UIManager.t :=
  UIManager.mkUI (Some (UIManager.mkStudy true 1 2 0 [])) [] [].

(** A heap with one card, (hola, hello), and the array holding it. *)
Definition one_card_heap : list DeckManager.cell :=
  [ DeckManager.Obj
      (JObj [ ("id", JStr "card-1-a"); ("front", JStr "hola");
              ("back", JStr "hello") ]);
    DeckManager.Arr [0] ].

Definition idle_search : SearchManager.t := SearchManager.mkSearch 300 None.

(** The "Create New Deck" dialog: close button, text input, cancel and
    confirm buttons, all enabled and visible. *)
Definition button (n : nat) : Dom.element :=
  Dom.mkElement n Dom.BUTTON false None false None false false false.
Definition text_input (n : nat) : Dom.element :=
  Dom.mkElement n Dom.INPUT false (Some "text") false None false false false.
Definition dialog : list Dom.element :=
  [ button 1; text_input 2; button 3; button 4 ].

(** The dialog after a fifth button has been added to it. *)
Definition dialog_grown : list Dom.element := dialog ++ [ button 5 ].

(** A modal that is closed, in a document whose focus is on node 9, the
    "add deck" button; node 0 is the modal itself. *)
Definition closed_modal : Dom.modal :=
  Dom.mkModal 0 false None [] false (Some 9) false false [] [].

Definition tab : Dom.keydown := Dom.mkKey "Tab" false.
Definition shift_tab : Dom.keydown := Dom.mkKey "Tab" true.

(** Give focus to node [n], as the user or the browser does. *)
Definition with_focus (n : nat) (m : Dom.modal) : Dom.modal :=
  Dom.mkModal (Dom.container m) (Dom.focusTrapActive m)
    (Dom.previouslyFocusedElement m) (Dom.focusableElements m)
    (Dom.listening m) (Some n) (Dom.displayed m) (Dom.scrollLocked m)
    (Dom.deferred m) (Dom.history m).

(** The registry as constructed with deck 2 selected. *)
Definition deck2_selected : DeckManager.world :=
  fst (DeckManager.selectDeck quiet 2 (DeckManager.constructor clock)).

End Samples.

(** ** [StorageManager]: writing and clearing *)

Module StorageWrite.
Import Json StorageManager.

(** The size ceiling of [saveState], in characters: 5 * 1024 * 1024. *)
Definition MAX_LENGTH : Z := 5242880.

(** [localStorage.removeItem(this.storageKey)] *)
Definition removeItem (ls : localStorage) : result localStorage :=
  match ls with
  | Unavailable => Throw (Error "SecurityError")
  | Slot _ => Ok (Slot None)
  end.

(** [clearState]: the storage afterwards and the value returned. *)
Definition clearState (ls : localStorage) : localStorage * bool :=
  if isLocalStorageAvailable ls then
    match removeItem ls with
    | Ok ls' => (ls', true)
    | Throw _ => (ls, false)
    end
  else (ls, false).

Section WithPlatform.

(** [JSON.stringify] *)
Variable JSON_stringify : json -> string.

(** [new Date().toISOString()] *)
Variable now : string.

(** Whether storing this text would exceed the storage quota. *)
Variable quota_exceeded : string -> bool.

(** [localStorage.setItem(this.storageKey, text)] *)
Definition setItem (text : string) (ls : localStorage) : result localStorage :=
  match ls with
  | Unavailable => Throw (Error "SecurityError")
  | Slot _ =>
      if quota_exceeded text then Throw (Error "QuotaExceededError")
      else Ok (Slot (Some text))
  end.

(** [{ ...state, version: this.version, savedAt: ... }] for the object
    [state]. *)
Definition stateWithVersion (state : list (string * json)) : json :=
  JObj (set_field "savedAt" (JStr now)
          (set_field "version" (JNum VERSION) state)).

(** [saveState(state)] for an object [state]: the storage afterwards and the
    value returned. *)
Definition saveState (state : list (string * json)) (ls : localStorage)
  : localStorage * bool :=
  if negb (isLocalStorageAvailable ls) then (ls, false)
  else if negb (isValidStateStructure (Some (stateWithVersion state)))
  then (ls, false)
  else
    let serialized := JSON_stringify (stateWithVersion state) in
    if Z.ltb MAX_LENGTH (Z.of_nat (String.length serialized)) then (ls, false)
    else
      match setItem serialized ls with
      | Ok ls' => (ls', true)
      | Throw (Error name) =>
          if String.eqb name "QuotaExceededError"
          then (fst (clearState ls), false)
          else (ls, false)
      | Throw _ => (ls, false)
      end.

End WithPlatform.

(** The snapshot carries the current version. *)
Definition current_version (s : json) : bool :=
  match s with
  | JObj fields => strict_eq_num (assoc "version" fields) VERSION
  | _ => false
  end.

(** A deck as [migrateToV1] leaves it: an object with a truthy [name], an
    array of [cards] and a [createdAt]. *)
Definition normalised (deck : json) : Prop :=
  match deck with
  | JObj fields =>
      truthy (assoc "name" fields) = true
      /\ isArray (assoc "cards" fields) = true
      /\ is_Some (assoc "createdAt" fields)
  | _ => False
  end.

End StorageWrite.

(** ** [UIManager.savePersistedState] *)

Module Persistence.
Import Json StorageManager DeckManager.

(** [this.deckManager.decks] as [JSON.stringify] sees it: the deck objects in
    order; [undefined] elements become [null]. *)
Definition decks_json (w : world) : value :=
  match hp w !! decks (dm w) with
  | Some (Arr elems) =>
      Some (JArr (map (fun l =>
                         match deref (hp w) l with
                         | Some j => j
                         | None => JNull
                         end) elems))
  | Some (Obj j) => Some j
  | None => None
  end.

(** The object literal [{ decks, selectedDeckId, searchQuery }] built by
    [savePersistedState]; [searchQuery] is the text of the search box. *)
Definition state_of (searchQuery : string) (w : world)
  : list (string * json) :=
  match decks_json w with
  | Some j => [("decks", j)]
  | None => []
  end ++
  [ ("selectedDeckId",
     match selectedDeckId (dm w) with
     | Some id => JNum (inject_Z id)
     | None => JNull
     end);
    ("searchQuery", JStr searchQuery) ].

(** [savePersistedState]: the storage afterwards and whether the state was
    saved. *)
Definition savePersistedState
  (JSON_stringify : json -> string) (now : string)
  (quota_exceeded : string -> bool)
  (searchQuery : string) (w : world) (ls : localStorage)
  : localStorage * bool :=
  StorageWrite.saveState JSON_stringify now quota_exceeded
    (state_of searchQuery w) ls.

(** The event a registry call publishes, if any. *)
Definition event_of (o : op) : option event :=
  match o with
  | OpCreate _ _ => Some deckCreated
  | OpUpdate _ _ => Some deckUpdated
  | OpDelete _ => Some deckDeleted
  | OpSelect _ => Some deckSelected
  | OpAddCard _ _ _ _ _ => Some cardAdded
  | OpDeleteCard _ _ => Some cardDeleted
  | OpGetAll | OpSubscribe _ | OpUnsubscribe _ => None
  end.

(** The exception a registry call ends with, if any. *)
Definition thrown {X} (r : result X) : option exn :=
  match r with
  | Ok _ => None
  | Throw e => Some e
  end.

Definition exception_of (throws : invocation -> bool) (o : op) (w : world)
  : option exn :=
  match o with
  | OpCreate name now => thrown (snd (createDeck throws name now w))
  | OpUpdate id name => thrown (snd (updateDeck throws id name w))
  | OpDelete id => thrown (snd (deleteDeck throws id w))
  | OpSelect id => thrown (snd (selectDeck throws id w))
  | OpAddCard d f b c now => thrown (snd (addCardToDeck throws d f b c now w))
  | OpDeleteCard d c => thrown (snd (deleteCardFromDeck throws d c w))
  | OpGetAll => thrown (snd (getAllDecks w))
  | OpSubscribe _ | OpUnsubscribe _ => None
  end.

End Persistence.

(** ** A session with the embedded modal *)

Module ModalSession.
Import Dom.

(** What can happen to the modal of [app.js]: a key goes down while the
    modal contains [dom]; [open] is called while it contains [dom]; [close]
    is called (by a close button, a click on the backdrop, or the
    application). *)
Inductive input : Type :=
| KeyDown (dom : list element) (e : keydown)
| Open (dom : list element) (trigger : option nat)
| Close.

Definition step (i : input) (m : modal) : modal :=
  match i with
  | KeyDown dom e => AccessibleModal.press dom e m
  | Open dom trigger => AccessibleModal.open dom trigger m
  | Close => AccessibleModal.close m
  end.

Definition run (inputs : list input) (m : modal) : modal :=
  fold_left (fun m i => step i m) inputs m.

(** The contents of the modal at the inputs that look at them. *)
Definition doms_of (inputs : list input) : list (list element) :=
  flat_map (fun i =>
              match i with
              | KeyDown dom _ | Open dom _ => [dom]
              | Close => []
              end) inputs.

Definition is_key (i : input) : bool :=
  match i with
  | KeyDown _ _ => true
  | _ => false
  end.

(** The trap flag, the key listener, the display and the scroll lock are
    all on or all off. *)
Definition flags_agree (m : modal) : Prop :=
  listening m = focusTrapActive m
  /\ displayed m = focusTrapActive m
  /\ scrollLocked m = focusTrapActive m.

(** A focus move made under the trap to the modal or to an element that is
    focusable in one of [doms]; any other action. *)
Definition trapped (self : nat) (doms : list (list element)) (a : action)
  : Prop :=
  match a with
  | Focus target active attached =>
      active = true /\ attached = true
      /\ (target = self
          \/ exists dom x,
               In dom doms /\ In x dom /\ node x = target
               /\ AccessibleModal.matches_selector x = true
               /\ AccessibleModal.visible x = true)
  | _ => True
  end.

End ModalSession.

(** ** More concrete inputs *)

Module MoreSamples.
Import Json.
Local Open Scope nat_scope.

(** The state [savePersistedState] saves for the registry as constructed
    with an empty search box, stamped by [saveState], and its JSON text. *)
Definition saved_state : list (string * json) :=
  Persistence.state_of "" (DeckManager.constructor Samples.clock).

Definition saved_snapshot : json :=
  StorageWrite.stateWithVersion Samples.clock saved_state.

Definition saved_text : string :=
  Samples.requote
    ("{'decks':["
     ++ "{'id':1,'name':'Spanish Vocabulary','cards':[],"
     ++ "'createdAt':'2026-02-05T10:00:00.000Z'},"
     ++ "{'id':2,'name':'Biology Terms','cards':[],"
     ++ "'createdAt':'2026-02-05T10:00:00.000Z'},"
     ++ "{'id':3,'name':'JavaScript Concepts','cards':[],"
     ++ "'createdAt':'2026-02-05T10:00:00.000Z'}],"
     ++ "'selectedDeckId':null,'searchQuery':'','version':1,"
     ++ "'savedAt':'2026-02-05T10:00:00.000Z'}")%string.

(** [JSON.stringify] and [JSON.parse] on that snapshot; the samples exercise
    no other document. *)
Definition stringify (j : json) : string :=
  if UIManager.json_eqb j saved_snapshot then saved_text else "null".

Definition parse (text : string) : option json :=
  if String.eqb text saved_text then Some saved_snapshot
  else if String.eqb text "null" then Some JNull
  else None.

(** The same for the registry with deck 2 selected. *)
Definition selected_snapshot : json :=
  StorageWrite.stateWithVersion Samples.clock
    (Persistence.state_of "" Samples.deck2_selected).

Definition selected_text : string :=
  Samples.requote
    ("{'decks':["
     ++ "{'id':1,'name':'Spanish Vocabulary','cards':[],"
     ++ "'createdAt':'2026-02-05T10:00:00.000Z'},"
     ++ "{'id':2,'name':'Biology Terms','cards':[],"
     ++ "'createdAt':'2026-02-05T10:00:00.000Z'},"
     ++ "{'id':3,'name':'JavaScript Concepts','cards':[],"
     ++ "'createdAt':'2026-02-05T10:00:00.000Z'}],"
     ++ "'selectedDeckId':2,'searchQuery':'','version':1,"
     ++ "'savedAt':'2026-02-05T10:00:00.000Z'}")%string.

Definition stringify_selected (j : json) : string :=
  if UIManager.json_eqb j selected_snapshot then selected_text else "null".

Definition parse_selected (text : string) : option json :=
  if String.eqb text selected_text then Some selected_snapshot
  else if String.eqb text "null" then Some JNull
  else None.

(** A storage with room for everything, and one with room for a hundred
    characters. *)
Definition roomy (_ : string) : bool := false.
Definition cramped (text : string) : bool :=
  Nat.ltb 100 (String.length text).

(** The embedded modal, opened on the dialog from the "add deck" button. *)
Definition opened_modal : Dom.modal :=
  AccessibleModal.open Samples.dialog (Some 9) Samples.closed_modal.

End MoreSamples.

(* ===================================================================== *)
(** * Part II: properties *)
(* ===================================================================== *)

(** ** Persistence: [loadState] fails soft *)

Module StorageFacts.
Import Json StorageManager.

Lemma assoc_set_field_eq k v fields :
  assoc k (set_field k v fields) = Some v.
Proof.
  induction fields as [|[k' v'] rest IH]; simpl.
  - now rewrite String.eqb_refl.
  - destruct (String.eqb k k') eqn:E; simpl.
    + now rewrite String.eqb_refl.
    + now rewrite E.
Qed.

Lemma assoc_set_field_ne k k' v fields :
  k <> k' -> assoc k' (set_field k v fields) = assoc k' fields.
Proof.
  intros Hne. induction fields as [|[k0 v0] rest IH]; simpl.
  - destruct (String.eqb k' k) eqn:E; [|reflexivity].
    apply String.eqb_eq in E. congruence.
  - destruct (String.eqb k k0) eqn:E; simpl.
    + apply String.eqb_eq in E. subst k0.
      destruct (String.eqb k' k) eqn:E'; [|reflexivity].
      apply String.eqb_eq in E'. congruence.
    + now rewrite IH.
Qed.

(** Reading a field back after assignments to fields. *)
Ltac fields :=
  repeat first [ rewrite assoc_set_field_eq
               | rewrite assoc_set_field_ne by discriminate ].

(** On a parsed document the validator and [well_formed] agree. *)
Lemma isValidStateStructure_well_formed (j : json) :
  isValidStateStructure (Some j) = well_formed j.
Proof.
  destruct j as [|b|q|s|items|fields]; unfold isValidStateStructure;
    cbn -[Qeq_bool]; try reflexivity; now rewrite andb_false_r.
Qed.

Section WithPlatform.
Variable JSON_parse : string -> option json.
Variable now : string.
Variable StringToNumber : string -> option Q.
Variable ObjectToString : json -> string.









End WithPlatform.

(** [loop_values] lists the values of the loop variable of [migrateState]:
    the start value plus 0, 1, 2, ... for as long as that is at most
    [VERSION]. *)
Lemma loop_values_enumerates v0 q :
  In q (loop_values v0) <->
  exists i : nat,
    q = (v0 + inject_Z (Z.of_nat i))%Q
    /\ (v0 + inject_Z (Z.of_nat i) <= VERSION)%Q.
Proof.
  unfold loop_values, VERSION. split.
  - destruct (Qle_bool v0 1) eqn:E; [|intros []].
    apply Qle_bool_iff in E.
    intros H. apply in_map_iff in H as (i & <- & Hi). apply in_seq in Hi.
    exists i. split; [reflexivity|].
    assert (H0 : (0 <= Qfloor (1 - v0))%Z).
    { change 0%Z with (Qfloor 0). apply Qfloor_resp_le. lra. }
    assert (Hz : (Z.of_nat i <= Qfloor (1 - v0))%Z) by lia.
    pose proof (Qfloor_le (1 - v0)) as Hf.
    assert (inject_Z (Z.of_nat i) <= inject_Z (Qfloor (1 - v0)))%Q
      by (rewrite <- Zle_Qle; exact Hz).
    lra.
  - intros (i & -> & Hle).
    assert (Hi : (0 <= inject_Z (Z.of_nat i))%Q).
    { change 0%Q with (inject_Z 0). rewrite <- Zle_Qle. lia. }
    assert (E : Qle_bool v0 1 = true) by (apply Qle_bool_iff; lra).
    rewrite E. apply in_map_iff. exists i. split; [reflexivity|].
    apply in_seq. split; [lia|].
    assert (Hz : (Z.of_nat i <= Qfloor (1 - v0))%Z).
    { rewrite <- (Qfloor_Z (Z.of_nat i)). apply Qfloor_resp_le. lra. }
    lia.
Qed.

(** The loop variable of [migrateState] from a few starting values. *)
Example loop_values_from_minus_two :
  loop_values (-2) = [ (-2 + 0)%Q; (-2 + 1)%Q; (-2 + 2)%Q; (-2 + 3)%Q ].
Proof. reflexivity. Qed.

Example loop_values_from_a_half : loop_values (1 # 2) = [ ((1 # 2) + 0)%Q ].
Proof. reflexivity. Qed.

Example loop_values_from_two : loop_values 2 = [].
Proof. reflexivity. Qed.

(** A legacy snapshot is migrated: the deck gets an empty [cards] and a
    creation time, the snapshot the current version. *)
Example loadState_migrates_legacy :
  loadState Samples.parse Samples.clock Samples.no_number Samples.object_text
    (Slot (Some Samples.legacy_text))
  = Ok Samples.legacy_migrated.
Proof. reflexivity. Qed.

(** Text that is not JSON yields the default state. *)
Example loadState_on_garbage :
  loadState Samples.parse Samples.clock Samples.no_number Samples.object_text
    (Slot (Some "not json"))
  = Ok (getDefaultState Samples.clock).
Proof. reflexivity. Qed.


End StorageFacts.

(** ** The deck registry *)

Module RegistryFacts.
Import Json DeckManager.

(** *** The heap *)

Lemma deref_insert_arr h a xs l :
  (exists ys, h !! a = Some (Arr ys)) ->
  deref (<[a := Arr xs]> h) l = deref h l.
Proof.
  intros [ys Ha]. unfold deref.
  destruct (decide (a = l)) as [->|Hne].
  - rewrite list_lookup_insert_eq by (eapply lookup_lt_Some; eauto).
    now rewrite Ha.
  - now rewrite list_lookup_insert_ne.
Qed.

Lemma deref_alloc_arr h xs l : deref (h ++ [Arr xs]) l = deref h l.
Proof.
  unfold deref. destruct (decide (l < length h)) as [Hlt|Hge].
  - now rewrite lookup_app_l.
  - rewrite (lookup_ge_None_2 h l) by lia.
    destruct (decide (l = length h)) as [->|Hne].
    + now rewrite list_lookup_middle.
    + rewrite lookup_ge_None_2; [reflexivity|].
      rewrite length_app; simpl; lia.
Qed.

Lemma findIndex_lookup {A} (p : A -> result bool) xs i :
  findIndex p xs = Ok (Some i) ->
  exists x, xs !! i = Some x /\ p x = Ok true.
Proof.
  revert i. induction xs as [|x rest IH]; simpl; intros i; [discriminate|].
  destruct (p x) as [[|]|e] eqn:Hp; simpl; try discriminate.
  - intros [= <-]. now exists x.
  - destruct (findIndex p rest) as [[j|]|e] eqn:Hf; simpl; try discriminate.
    intros [= <-]. simpl. now apply IH.
Qed.

Lemma find_findIndex {A} (p : A -> result bool) xs x :
  find p xs = Ok (Some x) ->
  exists i, findIndex p xs = Ok (Some i) /\ xs !! i = Some x.
Proof.
  unfold find. destruct (findIndex p xs) as [[i|]|e]; simpl; try discriminate.
  intros [= H]. now exists i.
Qed.

Section WithObservers.
Variable throws : invocation -> bool.

(** *** Notification *)

Lemma forEach_call_spec ev data obs : forall w,
  forEach_call throws obs ev data w =
  (mkWorld (hp w) (dm w)
     (calls w ++
      map (call_in ev data w)
        (reached (fun c => throws (call_in ev data w c)) obs))
     (made w),
   if forallb (fun c => negb (throws (call_in ev data w c))) obs
   then Ok tt else Throw (Error "thrown by an observer")).
Proof.
  induction obs as [|c rest IH]; intros w; simpl.
  - rewrite app_nil_r. now destruct w.
  - destruct (throws (call_in ev data w c)) eqn:Hc; simpl; [reflexivity|].
    rewrite IH. unfold call_in; simpl. now rewrite <- app_assoc.
Qed.

Lemma reached_all throwing obs :
  forallb (fun c => negb (throwing c)) obs = true -> reached throwing obs = obs.
Proof.
  induction obs as [|c rest IH]; simpl; [reflexivity|].
  destruct (throwing c); simpl; [discriminate|]. intros H. now rewrite IH.
Qed.

Lemma reached_first_throw throwing obs :
  forallb (fun c => negb (throwing c)) obs = false ->
  exists pre c post,
    obs = pre ++ c :: post
    /\ forallb (fun c => negb (throwing c)) pre = true
    /\ throwing c = true
    /\ reached throwing obs = pre ++ [c].
Proof.
  induction obs as [|c rest IH]; simpl; [discriminate|].
  destruct (throwing c) eqn:Hc; simpl.
  - intros _. now exists [], c, rest.
  - intros H. destruct (IH H) as (pre & c' & post & -> & Hpre & Hc' & Hr).
    exists (c :: pre), c', post. simpl. rewrite Hc, Hpre, Hr. auto.
Qed.

Lemma new_calls_app w l h d m :
  new_calls w (mkWorld h d (calls w ++ l) m) = l.
Proof. unfold new_calls; simpl. now rewrite drop_app_length. Qed.

Lemma publish_spec {X} ev data (x : X) w :
  publish throws ev data x w =
  (mkWorld (hp w) (dm w)
     (calls w ++
      map (call_in ev data w)
        (reached (fun c => throws (call_in ev data w c)) (observers (dm w))))
     (made w),
   if forallb (fun c => negb (throws (call_in ev data w c)))
        (observers (dm w))
   then Ok x else Throw (Error "thrown by an observer")).
Proof.
  unfold publish, notifyObservers. rewrite forEach_call_spec.
  now destruct (forallb _ _).
Qed.

(** C3, as amended: a published event reaches the callbacks in subscription
    order; the registry itself is left as it was.  When no callback throws,
    all of them are called and the operation returns.  When one
    throws, the callbacks subscribed after it are not called and the
    exception leaves the publishing operation. *)
Theorem publish_stops_at_first_throw {X} ev data (x : X) w :
  let throwing := fun c => throws (call_in ev data w c) in
  let after := fst (publish throws ev data x w) in
  hp after = hp w /\ dm after = dm w /\ made after = made w
  /\ new_calls w after
     = map (call_in ev data w) (reached throwing (observers (dm w)))
  /\ if forallb (fun c => negb (throwing c)) (observers (dm w))
     then reached throwing (observers (dm w)) = observers (dm w)
          /\ snd (publish throws ev data x w) = Ok x
     else (exists pre c post,
              observers (dm w) = pre ++ c :: post
              /\ forallb (fun c => negb (throwing c)) pre = true
              /\ throwing c = true
              /\ reached throwing (observers (dm w)) = pre ++ [c])
          /\ snd (publish throws ev data x w)
             = Throw (Error "thrown by an observer").
Proof.
  cbv zeta. rewrite publish_spec. cbn [fst snd hp dm made].
  repeat split; try reflexivity.
  - apply new_calls_app.
  - destruct (forallb _ (observers (dm w))) eqn:E.
    + split; [now apply reached_all | reflexivity].
    + split; [now apply reached_first_throw | reflexivity].
Qed.

(** *** Subscribing and unsubscribing *)

Lemma times_called_map ev data w c l :
  times_called c (map (call_in ev data w) l) = count_occ Nat.eq_dec l c.
Proof.
  unfold times_called. induction l as [|o rest IH]; simpl; [reflexivity|].
  destruct (Nat.eq_dec o c) as [->|Hne].
  - rewrite Nat.eqb_refl. simpl. now rewrite IH.
  - apply Nat.eqb_neq in Hne. now rewrite Hne.
Qed.

Lemma reached_count throwing c l :
  count_occ Nat.eq_dec (reached throwing l) c <= count_occ Nat.eq_dec l c.
Proof.
  induction l as [|o rest IH]; simpl; [lia|].
  destruct (throwing o); simpl; destruct (Nat.eq_dec o c); lia.
Qed.

Lemma count_filtered_out c l :
  count_occ Nat.eq_dec (List.filter (fun o => negb (Nat.eqb o c)) l) c = 0.
Proof.
  induction l as [|o rest IH]; simpl; [reflexivity|].
  destruct (Nat.eqb o c) eqn:E; simpl; [exact IH|].
  apply Nat.eqb_neq in E. destruct (Nat.eq_dec o c); [contradiction|exact IH].
Qed.

Lemma filter_app_two c l :
  List.filter (fun o => negb (Nat.eqb o c)) (l ++ [c; c])
  = List.filter (fun o => negb (Nat.eqb o c)) l.
Proof.
  rewrite List.filter_app. simpl. rewrite Nat.eqb_refl. simpl.
  apply app_nil_r.
Qed.

(** C10, as amended: [subscribe] appends without looking for duplicates, so
    a callback subscribed twice is called twice more per published event
    when the notification runs to its end, that is, when no subscribed
    callback throws; one [unsubscribe] filters out every occurrence, the
    other callbacks keep their order, and the callback is not called
    again. *)
Theorem subscribe_twice_unsubscribe_once {X} c ev data (x : X) w :
  let twice := subscribe c (subscribe c w) in
  let gone := unsubscribe c twice in
  observers (dm twice) = observers (dm w) ++ [c; c]
  /\ ((forall o, In o (observers (dm twice)) ->
          throws (call_in ev data twice o) = false) ->
      times_called c
        (new_calls twice (fst (publish throws ev data x twice)))
      = count_occ Nat.eq_dec (observers (dm w)) c + 2)
  /\ observers (dm gone)
     = List.filter (fun o => negb (Nat.eqb o c)) (observers (dm w))
  /\ times_called c (new_calls gone (fst (publish throws ev data x gone)))
     = 0.
Proof.
  cbv zeta.
  assert (Htwice : observers (dm (subscribe c (subscribe c w)))
                   = observers (dm w) ++ [c; c]).
  { simpl. now rewrite <- app_assoc. }
  split; [exact Htwice|]. split; [|split].
  - intros Hquiet. rewrite publish_spec. cbn [fst]. rewrite new_calls_app.
    rewrite times_called_map. rewrite reached_all.
    + rewrite Htwice, count_occ_app. simpl.
      destruct (Nat.eq_dec c c); [lia|contradiction].
    + apply forallb_forall. intros o Ho. now rewrite Hquiet.
  - unfold unsubscribe at 1. cbn [dm set_dm observers set_observers].
    rewrite Htwice. apply filter_app_two.
  - rewrite publish_spec. cbn [fst]. rewrite new_calls_app.
    rewrite times_called_map.
    pose proof (reached_count
      (fun c0 => throws (call_in ev data
                   (unsubscribe c (subscribe c (subscribe c w))) c0))
      c (observers (dm (unsubscribe c (subscribe c (subscribe c w)))))) as Hle.
    unfold unsubscribe at 3 in Hle.
    cbn [dm set_dm observers set_observers] in Hle.
    rewrite count_filtered_out in Hle. lia.
Qed.

(** *** Deleting the selected deck *)

(** C4: when deck [d] is the selected deck, [deleteDeck d] has cleared the
    selection by the time the [deckDeleted] event is published: every
    callback called during the notification finds [selectedDeckId] null,
    receives the deleted deck object itself, unchanged, as payload, and
    afterwards [selectedDeckId] is null, also when a callback throws. *)
Theorem deleteDeck_clears_selection_before_publishing d l w :
  selectedDeckId (dm w) = Some d ->
  getDeckById d w = Ok (Some l) ->
  let after := fst (deleteDeck throws d w) in
  selectedDeckId (dm after) = None
  /\ id_is (hp w) d l = Ok true
  /\ Forall (fun i =>
               inv_event i = deckDeleted
               /\ inv_data i = PDeck l
               /\ selectedDeckId (inv_registry i) = None
               /\ deref (inv_heap i) l = deref (hp w) l)
            (new_calls w after)
  /\ map inv_callback (new_calls w after)
     = reached (fun c => throws (call_in deckDeleted (PDeck l) after c))
         (observers (dm w))
  /\ snd (deleteDeck throws d w)
     = if forallb
            (fun c => negb (throws (call_in deckDeleted (PDeck l) after c)))
            (observers (dm w))
       then Ok l else Throw (Error "thrown by an observer").
Proof.
  intros Hsel Hget. unfold getDeckById in Hget.
  destruct (read_arr (hp w) (decks (dm w))) as [elems|e] eqn:Harr;
    [|discriminate].
  cbn [bind] in Hget.
  apply find_findIndex in Hget as (index & Hidx & Hl).
  destruct (findIndex_lookup _ _ _ Hidx) as (l' & Hl' & Hid).
  assert (l' = l) by congruence. subst l'.
  cbv zeta. unfold deleteDeck. rewrite Harr, Hidx, Hl.
  cbn [hp dm set_hp]. rewrite Hsel, Z.eqb_refl.
  rewrite publish_spec.
  cbn [fst snd hp dm set_dm set_hp selectedDeckId set_selectedDeckId
         observers calls made].
  split; [reflexivity|]. split; [exact Hid|].
  assert (Hold : exists ys, hp w !! decks (dm w) = Some (Arr ys)).
  { unfold read_arr in Harr.
    destruct (hp w !! decks (dm w)) as [[j|ys]|]; try discriminate.
    now exists ys. }
  split; [|split].
  - unfold new_calls. cbn [calls]. rewrite drop_app_length.
    apply Forall_map. apply Forall_forall. intros c _.
    unfold call_in; cbn.
    repeat split. now apply deref_insert_arr.
  - unfold new_calls. cbn [calls]. rewrite drop_app_length.
    rewrite map_map. cbn. now rewrite map_id.
  - reflexivity.
Qed.

(** *** [getAllDecks] *)

Lemma findIndex_ext {A} (p q : A -> result bool) xs :
  (forall x, p x = q x) -> findIndex p xs = findIndex q xs.
Proof.
  intros H. induction xs as [|x rest IH]; simpl; [reflexivity|].
  now rewrite H, IH.
Qed.

(** C2, as amended: [getAllDecks] returns a new array holding the registry's
    deck objects themselves, in order.  Whatever is then done to that array
    leaves what [getAllDecks] and [getDeckById] show unchanged.  The deck
    objects are shared with the registry: a change made to one through the
    returned array is a change of the registry's deck. *)
Theorem getAllDecks_copies_the_array_only elems w :
  read_arr (hp w) (decks (dm w)) = Ok elems ->
  let a := length (hp w) in
  let after := fst (getAllDecks w) in
  snd (getAllDecks w) = Ok a
  /\ read_arr (hp after) a = Ok elems
  /\ a <> decks (dm w)
  /\ dm after = dm w
  /\ contents (hp after) (decks (dm after)) = contents (hp w) (decks (dm w))
  /\ (forall xs id,
         let mutated := set_hp (<[a := Arr xs]> (hp after)) after in
         contents (hp mutated) (decks (dm mutated))
         = contents (hp w) (decks (dm w))
         /\ getDeckById id mutated = getDeckById id w)
  /\ (forall i l j,
         elems !! i = Some l -> is_Some (deref (hp w) l) ->
         exists shown,
           contents (<[l := Obj j]> (hp after)) (decks (dm after)) = Some shown
           /\ shown !! i = Some (Some j)).
Proof.
  intros Harr. cbv zeta. unfold getAllDecks. rewrite Harr.
  cbn [alloc fst snd hp dm set_hp].
  assert (Hold : hp w !! decks (dm w) = Some (Arr elems)).
  { unfold read_arr in Harr.
    destruct (hp w !! decks (dm w)) as [[j|ys]|]; try discriminate.
    now injection Harr as ->. }
  pose proof (lookup_lt_Some _ _ _ Hold) as Hlt.
  assert (Hnew : (hp w ++ [Arr elems]) !! length (hp w) = Some (Arr elems))
    by apply list_lookup_middle, eq_refl.
  assert (Hkeep : (hp w ++ [Arr elems]) !! decks (dm w) = Some (Arr elems))
    by now rewrite lookup_app_l.
  split; [reflexivity|].
  split; [unfold read_arr; now rewrite Hnew|].
  split; [lia|]. split; [reflexivity|].
  split; [|split].
  - unfold contents. rewrite Hkeep, Hold. f_equal.
    apply map_ext. intros l. apply deref_alloc_arr.
  - intros xs id. split.
    + unfold contents.
      rewrite list_lookup_insert_ne by lia. rewrite Hkeep, Hold. f_equal.
      apply map_ext. intros l.
      rewrite deref_insert_arr by eauto. apply deref_alloc_arr.
    + unfold getDeckById, read_arr. cbn [hp dm set_hp].
      rewrite list_lookup_insert_ne by lia. rewrite Hkeep, Hold.
      cbn [bind]. unfold find. f_equal.
      * apply findIndex_ext. intros l. unfold id_is.
        rewrite deref_insert_arr by eauto. now rewrite deref_alloc_arr.
  - intros i l j Hi [j0 Hj0].
    assert (Hcell : hp w !! l = Some (Obj j0)).
    { unfold deref in Hj0. destruct (hp w !! l) as [[j1|ys]|]; congruence. }
    pose proof (lookup_lt_Some _ _ _ Hcell) as Hl.
    assert (l <> decks (dm w)) by congruence.
    exists (map (deref (<[l := Obj j]> (hp w ++ [Arr elems]))) elems). split.
    + unfold contents. rewrite list_lookup_insert_ne by congruence.
      now rewrite Hkeep.
    + rewrite list_lookup_fmap, Hi. cbn. f_equal. unfold deref.
      rewrite list_lookup_insert_eq; [reflexivity|].
      rewrite length_app; simpl; lia.
Qed.

End WithObservers.

(** C3, as stated, fails: with callbacks 0 and 1 subscribed in that order
    and callback 0 throwing, [createDeck] ends with the exception and
    callback 1 is never called. *)
Lemma a_throwing_callback_stops_the_rest :
  ~ (1 <= times_called 1
            (new_calls Samples.two_observers
               (fst (createDeck Samples.first_throws "Spanish" Samples.clock
                       Samples.two_observers))))
  /\ ~ (exists l,
          snd (createDeck Samples.first_throws "Spanish" Samples.clock
                 Samples.two_observers) = Ok l).
Proof.
  split.
  - vm_compute. lia.
  - intros [l Hl]. vm_compute in Hl. discriminate.
Qed.

(** A run of [subscribe_twice_unsubscribe_once]: callback 7, subscribed
    twice to a registry without subscribers, is called twice. *)
Lemma subscribe_twice_witness :
  times_called 7
    (new_calls
       (subscribe 7 (subscribe 7 (DeckManager.constructor Samples.clock)))
       (fst (publish Samples.quiet deckCreated (PDeck 0) tt
               (subscribe 7
                  (subscribe 7 (DeckManager.constructor Samples.clock))))))
  = 2.
Proof.
  exact (proj1 (proj2
    (subscribe_twice_unsubscribe_once Samples.quiet 7 deckCreated (PDeck 0) tt
       (DeckManager.constructor Samples.clock)))
    (fun _ _ => eq_refl)).
Defined.

(** C10, as stated, fails: callback 0 is subscribed twice and throws; the
    first call ends the notification, so it is called once per event, not
    twice. *)
Lemma a_throwing_callback_is_called_once :
  let w := subscribe 0 (subscribe 0 (DeckManager.constructor Samples.clock)) in
  let after := fst (createDeck Samples.first_throws "Spanish" Samples.clock w) in
  observers (dm w) = [0; 0]
  /\ times_called 0 (new_calls w after) = 1
  /\ times_called 0 (new_calls w after) <> 2.
Proof.
  split; [reflexivity|]. split; [reflexivity|].
  vm_compute. discriminate.
Qed.

(** A run of [deleteDeck_clears_selection_before_publishing]: deck 2 is
    selected and then deleted. *)
Lemma deleteDeck_witness :
  selectedDeckId (dm Samples.deck2_selected) = Some 2%Z
  /\ getDeckById 2 Samples.deck2_selected = Ok (Some 1)
  /\ selectedDeckId
       (dm (fst (deleteDeck Samples.quiet 2 Samples.deck2_selected))) = None.
Proof.
  split; [reflexivity|]. split; [reflexivity|].
  exact (proj1
    (deleteDeck_clears_selection_before_publishing Samples.quiet 2%Z 1
       Samples.deck2_selected eq_refl eq_refl)).
Defined.

(** A run of [getAllDecks_copies_the_array_only] on the registry as
    constructed. *)
Lemma getAllDecks_witness :
  read_arr (hp (DeckManager.constructor Samples.clock))
    (decks (dm (DeckManager.constructor Samples.clock))) = Ok [0; 1; 2]
  /\ snd (getAllDecks (DeckManager.constructor Samples.clock)) = Ok 4.
Proof.
  split; [reflexivity|].
  exact (proj1
    (getAllDecks_copies_the_array_only [0; 1; 2]
       (DeckManager.constructor Samples.clock) eq_refl)).
Defined.

(** C2, as stated, fails: renaming the first deck through the array that
    [getAllDecks] returned changes what the registry shows afterwards. *)
Lemma a_returned_deck_is_shared_with_the_registry :
  let w := DeckManager.constructor Samples.clock in
  let after := fst (getAllDecks w) in
  snd (getAllDecks w) = Ok 4
  /\ read_arr (hp after) 4 = Ok [0; 1; 2]
  /\ contents
       (<[0 := Obj (DeckManager.sampleDeck 1 "Renamed" Samples.clock)]>
          (hp after))
       (decks (dm after))
     <> contents (hp after) (decks (dm after)).
Proof.
  split; [reflexivity|]. split; [reflexivity|].
  vm_compute. discriminate.
Qed.

End RegistryFacts.

(** ** Deck ids *)

Module IdFacts.
Import Json DeckManager UIManager.

(** *** Heaps that keep the ids of their deck objects *)







Lemma read_arr_cell h a elems :
  read_arr h a = Ok elems -> h !! a = Some (Arr elems).
Proof.
  unfold read_arr. destruct (h !! a) as [[j|ys]|]; try discriminate.
  now intros [= ->].
Qed.


Section WithObservers.
Variable throws : invocation -> bool.



End WithObservers.

(** *** Seeding the counter from a stored snapshot *)




Lemma deref_assigned h0 ds tail i d :
  ds !! i = Some d -> deref (h0 ++ map Obj ds ++ tail) (length h0 + i) = Some d.
Proof.
  intros Hi. unfold deref.
  rewrite lookup_app_r by lia.
  replace (length h0 + i - length h0) with i by lia.
  rewrite lookup_app_l
    by (rewrite length_map; eapply lookup_lt_Some; eauto).
  now rewrite list_lookup_fmap, Hi.
Qed.


Section WithPlatform.
Variable throws : invocation -> bool.
Variable JSON_parse : string -> option json.
Variable now : string.
Variable StringToNumber : string -> option Q.
Variable ObjectToString : json -> string.


End WithPlatform.


(** C1 on a stored snapshot whose first deck entry is [null] and whose second
    deck has id 4: reading the ids throws once the decks have been replaced,
    so the counter keeps the value 4 that the constructor gave it instead of
    being seeded with 5, and the next deck made gets the id 4 that the
    loaded deck already has. *)
Theorem null_entry_leaves_counter_unseeded :
  let loaded :=
    loadPersistedState Samples.parse Samples.clock Samples.no_number
      Samples.object_text
      (StorageManager.Slot (Some Samples.null_entry_text))
      (constructor Samples.clock) in
  let after := fst (createDeck Samples.quiet "New" Samples.clock loaded) in
  StorageManager.loadState Samples.parse Samples.clock Samples.no_number
    Samples.object_text (StorageManager.Slot (Some Samples.null_entry_text))
  = Ok Samples.null_entry_snapshot
  /\ contents (hp loaded) (decks (dm loaded))
     = Some [ Some JNull;
              Some (JObj [ ("id", JNum 4); ("name", JStr "Verbs");
                           ("cards", JArr []) ]) ]
  /\ nextId (dm loaded) = 4%Z
  /\ made after = [7]
  /\ id_of (hp after) 7 = Some (JNum 4)
  /\ id_of (hp after) 5 = Some (JNum 4)
  /\ read_arr (hp after) (decks (dm after)) = Ok [4; 5; 7].
Proof. vm_compute. repeat split. Qed.

End IdFacts.

(** ** Study-mode navigation *)

Module StudyFacts.
Import Json DeckManager UIManager.
Local Open Scope Z_scope.

Lemma rem_next_prev i n :
  0 <= i < n ->
  0 <= Z.rem (i + 1) n < n /\ Z.rem (Z.rem (i + 1) n - 1 + n) n = i.
Proof.
  intros Hi. destruct (Z.eq_dec (i + 1) n) as [E|E].
  - rewrite E, Z.rem_same by lia. split; [lia|].
    replace (0 - 1 + n) with i by lia. apply Z.rem_small. lia.
  - rewrite (Z.rem_small (i + 1) n) by lia. split; [lia|].
    replace (i + 1 - 1 + n) with (i + 1 * n) by lia.
    rewrite Z.rem_add by nia. apply Z.rem_small. lia.
Qed.

Lemma rem_prev_next i n :
  0 <= i < n ->
  0 <= Z.rem (i - 1 + n) n < n /\ Z.rem (Z.rem (i - 1 + n) n + 1) n = i.
Proof.
  intros Hi. destruct (Z.eq_dec i 0) as [->|E].
  - rewrite (Z.rem_small (0 - 1 + n) n) by lia. split; [lia|].
    replace (0 - 1 + n + 1) with n by lia. apply Z.rem_same. lia.
  - replace (i - 1 + n) with (i - 1 + 1 * n) by lia.
    rewrite Z.rem_add by nia. rewrite (Z.rem_small (i - 1) n) by lia.
    split; [lia|]. replace (i - 1 + 1) with i by lia. apply Z.rem_small. lia.
Qed.

(** The index an out-of-range [currentIndex] is replaced by before a move. *)
Lemma normalised_in_range i n :
  0 < n ->
  0 <= (if Z.ltb i 0 || Z.leb n i then 0 else i) < n.
Proof.
  intros Hn. destruct (Z.ltb_spec i 0), (Z.leb_spec n i); simpl; lia.
Qed.

Lemma normalised_id i n :
  0 <= i < n -> (if Z.ltb i 0 || Z.leb n i then 0 else i) = i.
Proof.
  intros Hi. destruct (Z.ltb_spec i 0), (Z.leb_spec n i); simpl; lia.
Qed.

(** A move leaves a session on the same deck, at the moved index, whether or
    not rendering the card throws. *)
Lemma navigate_index move w u s l cs :
  study u = Some s -> active s = true ->
  getDeckById (deckId s) w = Ok (Some l) -> cards_of w l = Ok cs ->
  (1 <= length cs)%nat ->
  exists s',
    study (fst (navigate move w u)) = Some s'
    /\ active s' = true /\ deckId s' = deckId s
    /\ currentIndex s'
       = move (if Z.ltb (currentIndex s) 0
                  || Z.leb (Z.of_nat (length cs)) (currentIndex s)
               then 0 else currentIndex s)
           (Z.of_nat (length cs)).
Proof.
  intros Hs Ha Hd Hc Hn. unfold navigate. rewrite Hs, Ha. cbn [negb].
  rewrite Hd, Hc.
  destruct (Z.eqb_spec (Z.of_nat (length cs)) 0) as [E|_]; [lia|].
  set (i0 := if Z.ltb (currentIndex s) 0
                  || Z.leb (Z.of_nat (length cs)) (currentIndex s)
             then 0 else currentIndex s).
  set (s1 := set_index (move i0 (Z.of_nat (length cs))) s).
  destruct (prop (card_at cs (currentIndex s1)) "id") as [id|e] eqn:Hid.
  - unfold renderStudyModeCard.
    replace (deckId s1) with (deckId s) by reflexivity.
    rewrite Hd, Hc, Hid.
    destruct (map_has id _); cbn [fst study];
      eexists; (split; [reflexivity|]); cbn; auto.
  - cbn [fst study]. exists s1. cbn. auto.
Qed.

(** C5: in an active session over a deck of N >= 1 cards, [studyModeNext]
    and [studyModePrevious] first replace an out-of-range [currentIndex] by
    0 and then move with wrap-around; from an index in [0, N) next followed
    by previous, and previous followed by next, lead back to that index;
    and for N = 1 neither changes the index. *)
Theorem study_navigation_round_trip w u s l cs :
  study u = Some s -> active s = true ->
  getDeckById (deckId s) w = Ok (Some l) -> cards_of w l = Ok cs ->
  (1 <= length cs)%nat ->
  let N := Z.of_nat (length cs) in
  let i := currentIndex s in
  let i0 := if Z.ltb i 0 || Z.leb N i then 0 else i in
  (0 <= i < N -> i0 = i)
  /\ index_of (fst (studyModeNext w u)) = Some (Z.rem (i0 + 1) N)
  /\ index_of (fst (studyModePrevious w u)) = Some (Z.rem (i0 - 1 + N) N)
  /\ index_of (fst (studyModePrevious w (fst (studyModeNext w u)))) = Some i0
  /\ index_of (fst (studyModeNext w (fst (studyModePrevious w u)))) = Some i0
  /\ (N = 1 ->
      index_of (fst (studyModeNext w u)) = Some i0
      /\ index_of (fst (studyModePrevious w u)) = Some i0).
Proof.
  intros Hs Ha Hd Hc Hn. cbv zeta.
  set (N := Z.of_nat (length cs)). set (i := currentIndex s).
  set (i0 := if Z.ltb i 0 || Z.leb N i then 0 else i).
  assert (HN : 0 < N) by (subst N; lia).
  assert (Hi0 : 0 <= i0 < N) by (apply normalised_in_range; exact HN).
  destruct (navigate_index (fun i n => Z.rem (i + 1) n) w u s l cs
              Hs Ha Hd Hc Hn) as (sn & Hsn & Han & Hdn & Hin).
  destruct (navigate_index (fun i n => Z.rem (i - 1 + n) n) w u s l cs
              Hs Ha Hd Hc Hn) as (sp & Hsp & Hap & Hdp & Hip).
  fold N i i0 in Hin, Hip. cbv beta in Hin, Hip.
  destruct (rem_next_prev i0 N Hi0) as [Hrn Hback].
  destruct (rem_prev_next i0 N Hi0) as [Hrp Hforth].
  assert (Hnext : index_of (fst (studyModeNext w u)) = Some (Z.rem (i0 + 1) N)).
  { unfold index_of, studyModeNext. rewrite Hsn. cbn. now rewrite Hin. }
  assert (Hprev : index_of (fst (studyModePrevious w u))
                  = Some (Z.rem (i0 - 1 + N) N)).
  { unfold index_of, studyModePrevious. rewrite Hsp. cbn. now rewrite Hip. }
  split; [apply normalised_id|].
  split; [exact Hnext|]. split; [exact Hprev|].
  split; [|split].
  - destruct (navigate_index (fun i n => Z.rem (i - 1 + n) n) w
                (fst (studyModeNext w u)) sn l cs Hsn Han
                ltac:(now rewrite Hdn) Hc Hn) as (s2 & Hs2 & _ & _ & Hi2).
    unfold index_of, studyModePrevious. rewrite Hs2. cbn. rewrite Hi2, Hin.
    fold N. rewrite (normalised_id _ N Hrn). now rewrite Hback.
  - destruct (navigate_index (fun i n => Z.rem (i + 1) n) w
                (fst (studyModePrevious w u)) sp l cs Hsp Hap
                ltac:(now rewrite Hdp) Hc Hn) as (s2 & Hs2 & _ & _ & Hi2).
    unfold index_of, studyModeNext. rewrite Hs2. cbn. rewrite Hi2, Hip.
    fold N. rewrite (normalised_id _ N Hrp). now rewrite Hforth.
  - intros H1. rewrite Hnext, Hprev. split; f_equal; lia.
Qed.

(** A run of [study_navigation_round_trip]: a session at the last of three
    cards; next wraps to the first card and previous leads back. *)
Lemma study_navigation_witness :
  getDeckById 1 Samples.three_cards = Ok (Some 0%nat)
  /\ index_of (fst (studyModeNext Samples.three_cards Samples.studying))
     = Some 0
  /\ index_of
       (fst (studyModePrevious Samples.three_cards
               (fst (studyModeNext Samples.three_cards Samples.studying))))
     = Some 2.
Proof.
  split; [reflexivity|].
  pose proof (study_navigation_round_trip Samples.three_cards Samples.studying
                (mkStudy true 1 2 0 []) 0%nat
                [ JObj [ ("id", JStr "card-1-a"); ("front", JStr "hola");
                         ("back", JStr "hello");
                         ("createdAt", JStr Samples.clock) ];
                  JObj [ ("id", JStr "card-2-b"); ("front", JStr "adios");
                         ("back", JStr "goodbye");
                         ("createdAt", JStr Samples.clock) ];
                  JObj [ ("id", JStr "card-3-c"); ("front", JStr "gracias");
                         ("back", JStr "thanks");
                         ("createdAt", JStr Samples.clock) ] ]
                eq_refl eq_refl eq_refl eq_refl ltac:(simpl; lia)) as H.
  cbv zeta in H. destruct H as (_ & Hnext & _ & Hback & _).
  split; [exact Hnext | exact Hback].
Defined.

(** The scenario of the specification: a session entered on a three-card
    deck; next, next, next lead to 1, 2 and back to 0, and previous from 0
    wraps to 2. *)
Example three_card_scenario :
  let at0 := mkUI (Some (mkStudy true 1 0 0 [])) [] [] in
  let at1 := fst (studyModeNext Samples.three_cards at0) in
  let at2 := fst (studyModeNext Samples.three_cards at1) in
  let back := fst (studyModeNext Samples.three_cards at2) in
  index_of at1 = Some 1 /\ index_of at2 = Some 2 /\ index_of back = Some 0
  /\ index_of (fst (studyModePrevious Samples.three_cards at0)) = Some 2.
Proof. repeat split. Qed.

(** An index that has drifted out of range counts as 0. *)
Example drifted_index_is_normalised :
  let drifted := mkUI (Some (mkStudy true 1 7 0 [])) [] [] in
  index_of (fst (studyModeNext Samples.three_cards drifted)) = Some 1
  /\ index_of (fst (studyModePrevious Samples.three_cards drifted)) = Some 2.
Proof. repeat split. Qed.

End StudyFacts.

(** ** Search *)

Module SearchFacts.
Import Json DeckManager SearchManager.

Lemma lowered_card v k fields :
  v = Some (JObj fields) -> text_field k fields ->
  lowered v k = Ok (Str.toLowerCase (text v k)).
Proof.
  intros -> Hk. unfold lowered, text, text_field in *. cbn [prop bind].
  destruct (assoc k fields) as [[| | |s| |]|]; try contradiction;
    [|reflexivity].
  cbn. now destruct (String.eqb_spec s "") as [->|_].
Qed.

Lemma matches_card h q c :
  is_card (deref h c) ->
  matches h q c
  = Ok (Str.includes (Str.toLowerCase (text (deref h c) "front")) q
        || Str.includes (Str.toLowerCase (text (deref h c) "back")) q).
Proof.
  unfold is_card, matches.
  destruct (deref h c) as [[| | | | |fields]|] eqn:E; try contradiction.
  intros [Hf Hb].
  rewrite (lowered_card _ "front" fields eq_refl Hf).
  now rewrite (lowered_card _ "back" fields eq_refl Hb).
Qed.

Lemma filterM_cards h query elems :
  Forall (fun c => is_card (deref h c)) elems ->
  filterM (matches h (Str.trim (Str.toLowerCase query))) elems
  = Ok (List.filter (contains_trimmed h query) elems).
Proof.
  induction 1 as [|c rest Hc _ IH]; [reflexivity|].
  cbn [filterM List.filter]. rewrite (matches_card _ _ _ Hc), IH.
  reflexivity.
Qed.

Example trim_removes_surrounding_space : Str.trim "  a b  " = "a b".
Proof. reflexivity. Qed.

Example toLowerCase_folds_case : Str.toLowerCase "HoLa 1" = "hola 1".
Proof. reflexivity. Qed.

Example includes_finds_substring :
  Str.includes "hello" "ell" = true /\ Str.includes "hello" "elo" = false
  /\ Str.includes "" "" = true.
Proof. repeat split. Qed.

(** C6, as amended: a settled search with an empty or blank query hands the
    callback the input array itself and its length; with any other query it
    hands over a new array holding exactly those cards, in order, whose
    lower-cased front or back contains the lower-cased and trimmed query,
    and their number.  Either way every object and array that existed
    before is left as it was. *)
Theorem search_filters_and_writes_nothing cards query s h elems :
  read_arr h cards = Ok elems ->
  Forall (fun c => is_card (deref h c)) elems ->
  let h' := fst (settled cards query s h) in
  (forall l, l < length h -> h' !! l = h !! l)
  /\ if String.eqb query "" || String.eqb (Str.trim query) ""
     then h' = h /\ snd (settled cards query s h) = Ok (cards, length elems)
     else
       snd (settled cards query s h)
       = Ok (length h, length (List.filter (contains_trimmed h query) elems))
       /\ read_arr h' (length h)
          = Ok (List.filter (contains_trimmed h query) elems).
Proof.
  intros Harr Hcards. cbv zeta. unfold settled, search.
  destruct (String.eqb query "" || String.eqb (Str.trim query) "");
    cbn [debounceTimer fire].
  - unfold arr_length. rewrite Harr. cbn. auto.
  - unfold filterCards. rewrite Harr, (filterM_cards _ _ _ Hcards).
    cbn [alloc fst snd]. unfold arr_length, read_arr.
    rewrite list_lookup_middle by reflexivity. cbn [bind].
    split; [|split; reflexivity].
    intros l Hl. now apply lookup_app_l.
Qed.

(** A run of [search_filters_and_writes_nothing]: searching the one card
    (hola, hello) for "HOL". *)
Lemma search_witness :
  read_arr Samples.one_card_heap 1 = Ok [0]
  /\ Forall (fun c => is_card (deref Samples.one_card_heap c)) [0]
  /\ snd (settled 1 "HOL" Samples.idle_search Samples.one_card_heap)
     = Ok (2, 1).
Proof.
  assert (Hc : Forall (fun c => is_card (deref Samples.one_card_heap c)) [0])
    by (repeat constructor).
  split; [reflexivity|]. split; [exact Hc|].
  exact (proj1 (proj2
    (search_filters_and_writes_nothing 1 "HOL" Samples.idle_search
       Samples.one_card_heap [0] eq_refl Hc))).
Defined.

(** C6, as stated, fails: the query "hola " with a trailing space is trimmed
    before matching, so the card (hola, hello) is found although neither of
    its fields contains the lower-cased query "hola ". *)
Lemma search_trims_the_query :
  let h' := fst (settled 1 "hola " Samples.idle_search Samples.one_card_heap) in
  snd (settled 1 "hola " Samples.idle_search Samples.one_card_heap) = Ok (2, 1)
  /\ read_arr h' 2 = Ok [0]
  /\ read_arr h' 2
     <> Ok (List.filter
              (contains_query_spec Samples.one_card_heap "hola ") [0]).
Proof.
  split; [reflexivity|]. split; [reflexivity|].
  vm_compute. discriminate.
Qed.

End SearchFacts.

(** ** The focus trap *)

Module ModalFacts.
Import Dom.

(** Read off what was appended to the history. *)
Ltac history_since :=
  unfold since; cbn -[drop];
  repeat rewrite <- app_assoc; cbn [app];
  rewrite ?drop_app_length, ?drop_all.

(** *** The modal embedded in [app.js] *)


(** X3: while the embedded trap is active, a Tab press works from the
    elements the modal contains at that moment, not from the stored list:
    no focusable element, the default action is cancelled and focus stays;
    Tab on the last one focuses the first, Shift+Tab on the first one
    focuses the last; anywhere else nothing is done. *)
Lemma embedded_trapFocus dom shift m :
  focusTrapActive m = true -> listening m = true ->
  let e := mkKey "Tab" shift in
  let fresh := AccessibleModal.getFocusableElements dom in
  let m' := AccessibleModal.press dom e m in
  focusableElements m' = fresh
  /\ match fresh with
     | [] =>
         since m m' = [ PreventDefault ]
         /\ activeElement m' = activeElement m
     | firstElement :: _ =>
         let lastElement := List.last fresh firstElement in
         if shift then
           if has_focus m firstElement
           then since m m'
                = [ PreventDefault; Focus (node lastElement) true true ]
                /\ activeElement m' = Some (node lastElement)
           else since m m' = [] /\ activeElement m' = activeElement m
         else
           if has_focus m lastElement
           then since m m'
                = [ PreventDefault; Focus (node firstElement) true true ]
                /\ activeElement m' = Some (node firstElement)
           else since m m' = [] /\ activeElement m' = activeElement m
     end.
Proof.
  intros Ha Hl. cbv zeta.
  unfold AccessibleModal.press, AccessibleModal.handleKeyDown. rewrite Hl, Ha.
  unfold AccessibleModal.trapFocus.
  cbn -[AccessibleModal.getFocusableElements List.last drop has_focus since].
  destruct (AccessibleModal.getFocusableElements dom) as [|x xs] eqn:E.
  - history_since. auto.
  - cbn -[AccessibleModal.getFocusableElements List.last drop has_focus since].
    assert (Hf : forall y, has_focus (set_focusable (x :: xs) m) y
                           = has_focus m y) by reflexivity.
    rewrite !Hf.
    destruct shift;
      [destruct (has_focus m x)
      |destruct (has_focus m (List.last (x :: xs) x))];
      history_since; rewrite ?Ha, ?Hl; auto.
Qed.

(** The scenario of the specification on the embedded modal: the dialog
    [close, input, cancel, confirm]; Tab on [confirm] moves focus to [close],
    Shift+Tab on [close] moves focus to [confirm]. *)
Example four_element_scenario :
  let opened :=
    AccessibleModal.open Samples.dialog (Some 9) Samples.closed_modal in
  activeElement
    (AccessibleModal.press Samples.dialog Samples.tab
       (Samples.with_focus 4 opened)) = Some 1
  /\ activeElement
       (AccessibleModal.press Samples.dialog Samples.shift_tab
          (Samples.with_focus 1 opened)) = Some 4
  /\ since (Samples.with_focus 2 opened)
       (AccessibleModal.press Samples.dialog Samples.tab
          (Samples.with_focus 2 opened)) = [].
Proof. repeat split. Qed.

(** *** The stand-alone modal component *)

(** C8 on the stand-alone modal component: its [open] moves focus first and
    only afterwards attaches the key listener and sets the active flag, so
    the focus move happens with the flag and the listener as they were
    before the call; opened from the closed state, focus is moved while the
    trap is inactive and no listener is attached.  The modal embedded in
    [app.js] does it in the order the specification asks for
    ([embedded_open_order]). *)
Theorem standalone_open_moves_focus_first :
  (forall dom trigger m,
      since m (ModalComponent.open dom trigger m)
      = [ Show;
          Focus (match ModalComponent.getFocusableElements dom with
                 | firstElement :: _ => node firstElement
                 | [] => container m
                 end) (focusTrapActive m) (listening m);
          Listen; Activate; LockScroll; Announce "Dialog opened" ])
  /\ since Samples.closed_modal
       (ModalComponent.open Samples.dialog (Some 9) Samples.closed_modal)
     = [ Show; Focus 1 false false; Listen; Activate; LockScroll;
         Announce "Dialog opened" ]
  /\ since Samples.closed_modal
       (AccessibleModal.open Samples.dialog (Some 9) Samples.closed_modal)
     = [ Show; Activate; Listen; LockScroll; Focus 2 true true;
         Announce "Dialog opened" ].
Proof.
  split; [|split; reflexivity].
  intros dom trigger m. unfold ModalComponent.open.
  destruct (ModalComponent.getFocusableElements dom) as [|x xs];
    history_since; reflexivity.
Qed.

(** C9 on the stand-alone modal component: a key press never recomputes the
    stored list of focusable elements.  After the dialog has grown by a
    fifth button, Tab on that button, now the last element, does nothing,
    where the specification has focus move to the first element; and in a dialog
    without focusable elements Tab is not cancelled.  The modal embedded in
    [app.js] recomputes the list and wraps ([embedded_trapFocus]). *)
Theorem standalone_trap_works_from_the_stored_list :
  (forall e m,
      focusableElements (ModalComponent.trapFocus e m) = focusableElements m)
  /\ (let opened :=
        ModalComponent.open Samples.dialog (Some 9) Samples.closed_modal in
      let m := Samples.with_focus 5 opened in
      List.last (map node (ModalComponent.getFocusableElements
                             Samples.dialog_grown)) 0 = 5
      /\ since m (ModalComponent.press Samples.tab m) = []
      /\ activeElement (ModalComponent.press Samples.tab m) = Some 5)
  /\ (let opened :=
        AccessibleModal.open Samples.dialog (Some 9) Samples.closed_modal in
      let m := Samples.with_focus 5 opened in
      since m (AccessibleModal.press Samples.dialog_grown Samples.tab m)
      = [ PreventDefault; Focus 1 true true ])
  /\ (let opened := ModalComponent.open [] (Some 9) Samples.closed_modal in
      since opened (ModalComponent.press Samples.tab opened) = [])
  /\ (let opened := AccessibleModal.open [] (Some 9) Samples.closed_modal in
      since opened (AccessibleModal.press [] Samples.tab opened)
      = [ PreventDefault ]).
Proof.
  split; [|repeat split; reflexivity].
  intros e m. unfold ModalComponent.trapFocus.
  destruct (String.eqb (key e) "Tab"); [|reflexivity].
  destruct (shiftKey e), (head (focusableElements m)) as [f|],
    (List.last (map Some (focusableElements m)) None) as [l|];
    try reflexivity.
  - now destruct (has_focus m f).
  - now destruct (has_focus m l).
Qed.

End ModalFacts.

(** ** Saving, and loading what was saved *)

Module SaveFacts.
Import Json StorageManager StorageWrite StorageFacts.

Lemma set_field_same k v fields :
  assoc k fields = Some v -> set_field k v fields = fields.
Proof.
  induction fields as [|[k' v'] rest IH]; simpl; [discriminate|].
  destruct (String.eqb k k') eqn:E.
  - apply String.eqb_eq in E. now intros [= ->]; subst.
  - intros H. now rewrite IH.
Qed.

(** [or_else] with a truthy default is truthy. *)
Lemma or_else_truthy x d :
  truthy (Some d) = true -> truthy (Some (or_else x d)) = true.
Proof.
  intros Hd. destruct x as [j|]; unfold or_else; [|exact Hd].
  destruct (truthy (Some j)) eqn:E; [exact E|exact Hd].
Qed.

Lemma or_else_of_truthy j d :
  truthy (Some j) = true -> or_else (Some j) d = j.
Proof. unfold or_else. now intros ->. Qed.

Section WithPlatform.
Variable JSON_parse : string -> option json.
Variable JSON_stringify : json -> string.
Variable now : string.
Variable StringToNumber : string -> option Q.
Variable ObjectToString : json -> string.
Variable quota_exceeded : string -> bool.

(** A successful [saveState] has written the text of the stamped state, and
    that state passes validation. *)
Lemma saveState_true state ls :
  snd (saveState JSON_stringify now quota_exceeded state ls) = true ->
  fst (saveState JSON_stringify now quota_exceeded state ls)
  = Slot (Some (JSON_stringify (stateWithVersion now state)))
  /\ well_formed (stateWithVersion now state) = true.
Proof.
  unfold saveState.
  destruct ls as [|item]; cbn [isLocalStorageAvailable negb];
    [discriminate|].
  rewrite isValidStateStructure_well_formed.
  destruct (well_formed (stateWithVersion now state)); cbn [negb];
    [|discriminate].
  destruct (Z.ltb _ _); [discriminate|].
  cbn [setItem]. destruct (quota_exceeded _).
  - cbn. discriminate.
  - now cbn.
Qed.

(** A stored text that parses to a valid snapshot of the current version
    is loaded as it is. *)
Lemma loadState_of_stored text j (later : string) :
  text <> "" ->
  JSON_parse text = Some j ->
  well_formed j = true ->
  current_version j = true ->
  loadState JSON_parse later StringToNumber ObjectToString (Slot (Some text))
  = Ok j.
Proof.
  intros Hne Hparse Hwf Hv.
  unfold loadState, loadState_try.
  cbn [isLocalStorageAvailable negb getItem bind].
  apply String.eqb_neq in Hne. rewrite Hne, Hparse.
  rewrite isValidStateStructure_well_formed, Hwf. cbn [negb].
  destruct j as [| | | | |fs]; try discriminate.
  cbn [prop bind]. cbn [current_version] in Hv. rewrite Hv. reflexivity.
Qed.

Lemma stateWithVersion_current state :
  current_version (stateWithVersion now state) = true.
Proof. unfold stateWithVersion. cbn [current_version]. now fields. Qed.

(** X4: what [saveState] reports as saved is what the next [loadState]
    returns, stamp included, whatever the slot held before. *)
Theorem saveState_then_loadState state ls (later : string) :
  let stamped := stateWithVersion now state in
  snd (saveState JSON_stringify now quota_exceeded state ls) = true ->
  JSON_parse (JSON_stringify stamped) = Some stamped ->
  JSON_stringify stamped <> "" ->
  loadState JSON_parse later StringToNumber ObjectToString
    (fst (saveState JSON_stringify now quota_exceeded state ls))
  = Ok stamped.
Proof.
  intros stamped Hsaved Hparse Hne.
  destruct (saveState_true state ls Hsaved) as [-> Hwf].
  apply loadState_of_stored; try assumption.
  apply stateWithVersion_current.
Qed.

(** X5: a [saveState] that returns [false] leaves the slot as it was, with
    one exception: when storage is available, the state valid and within
    the size limit, and the write exceeds the quota, the stored item is
    removed, and the next [loadState] returns the default state. *)
Theorem saveState_failure state ls :
  let after := fst (saveState JSON_stringify now quota_exceeded state ls) in
  let text := JSON_stringify (stateWithVersion now state) in
  snd (saveState JSON_stringify now quota_exceeded state ls) = false ->
  if isLocalStorageAvailable ls
     && well_formed (stateWithVersion now state)
     && negb (Z.ltb MAX_LENGTH (Z.of_nat (String.length text)))
     && quota_exceeded text
  then after = Slot None
       /\ forall later,
            loadState JSON_parse later StringToNumber ObjectToString after
            = Ok (getDefaultState later)
  else after = ls.
Proof.
  cbv zeta. unfold saveState.
  destruct ls as [|item]; cbn [isLocalStorageAvailable negb andb];
    [reflexivity|].
  rewrite isValidStateStructure_well_formed.
  destruct (well_formed (stateWithVersion now state)); cbn [negb andb];
    [|reflexivity].
  destruct (Z.ltb _ _); cbn [negb andb]; [reflexivity|].
  cbn [setItem]. destruct (quota_exceeded _); cbn; [|discriminate].
  intros _. split; reflexivity.
Qed.


(** The deck object [migrateToV1] builds is normalised and has the
    [id] of the deck it was built from. *)
Lemma migrateDeck_normalised deck m :
  migrateDeck now deck = Ok m ->
  normalised m /\ prop (Some m) "id" = prop (Some deck) "id".
Proof.
  unfold migrateDeck.
  destruct deck as [| | | | |fields]; cbn [prop bind]; try discriminate;
    intros [= <-].
  1-4: cbn; repeat split; eauto.
  pose proof (or_else_truthy (assoc "name" fields) (JStr "Untitled Deck")
                eq_refl) as Hname.
  destruct (assoc "id" fields) as [i|];
    cbn [app normalised assoc String.eqb Ascii.eqb Bool.eqb prop];
    (split; [split; [exact Hname|split; [|eauto]]|reflexivity]);
    destruct (assoc "cards" fields) as [[]|]; reflexivity.
Qed.

Lemma mapM_migrateDeck ds : forall mds,
  mapM (migrateDeck now) ds = Ok mds ->
  Forall normalised mds
  /\ Forall2 (fun old new => prop (Some new) "id" = prop (Some old) "id")
       ds mds.
Proof.
  induction ds as [|d ds IH]; simpl; intros mds.
  - intros [= <-]. split; constructor.
  - destruct (migrateDeck now d) as [m|e] eqn:E; cbn [bind]; [|discriminate].
    destruct (mapM (migrateDeck now) ds) as [ms|e]; cbn [bind];
      [|discriminate].
    intros [= <-]. destruct (IH ms eq_refl) as [H1 H2].
    destruct (migrateDeck_normalised d m E) as [Hn Hid].
    split; constructor; assumption.
Qed.

(** X7: when [migrateToV1] returns, every deck of the result is an object
    with a name, an array of cards and a creation time; the decks are as many
    as before, in the same order and with the same ids; and the result is at
    version 1. *)
Theorem migrateToV1_normalises_decks data migrated :
  migrateToV1 now data = Ok migrated ->
  exists mds,
    prop (Some migrated) "decks" = Ok (Some (JArr mds))
    /\ Forall normalised mds
    /\ current_version migrated = true
    /\ forall ds,
         prop (Some data) "decks" = Ok (Some (JArr ds)) ->
         Forall2
           (fun old new => prop (Some new) "id" = prop (Some old) "id")
           ds mds.
Proof.
  unfold migrateToV1.
  destruct (prop (Some data) "decks") as [decks|e] eqn:Hd; cbn [bind];
    [|discriminate].
  destruct (or_else decks (JArr [])) as [| | | |ds0|] eqn:Hor;
    cbn [bind]; try discriminate.
  destruct (mapM (migrateDeck now) ds0) as [mds|e] eqn:Hm; cbn [bind];
    [|discriminate].
  destruct (mapM_migrateDeck ds0 mds Hm) as [Hn Hids].
  intros Hret. exists mds.
  assert (Hsame : forall ds, decks = Some (JArr ds) -> ds = ds0).
  { intros ds ->. cbn in Hor. congruence. }
  destruct data as [| | | | |fs]; try (cbn in Hd; discriminate);
    injection Hret as <-;
    cbn [prop current_version]; fields;
    (split; [reflexivity|]); (split; [exact Hn|]);
    (split; [reflexivity|]);
    intros ds Hds; rewrite (Hsame ds) by (cbn in Hd; congruence);
    exact Hids.
Qed.

Lemma migrateDeck_again later m :
  now <> "" ->
  (exists deck, migrateDeck now deck = Ok m) ->
  migrateDeck later m = Ok m.
Proof.
  intros Hnow [deck E]. revert E. unfold migrateDeck.
  assert (Ht : truthy (Some (JStr now)) = true).
  { cbn. apply String.eqb_neq in Hnow. now rewrite Hnow. }
  destruct (prop (Some deck) "id") as [id|e]; cbn [bind]; [|discriminate].
  destruct (prop (Some deck) "name") as [name|e]; cbn [bind]; [|discriminate].
  destruct (prop (Some deck) "cards") as [cards|e]; cbn [bind];
    [|discriminate].
  destruct (prop (Some deck) "createdAt") as [createdAt|e]; cbn [bind];
    [|discriminate].
  intros [= <-].
  pose proof (or_else_truthy name (JStr "Untitled Deck") eq_refl) as Hname.
  pose proof (or_else_truthy createdAt (JStr now) Ht) as Hcreated.
  destruct id as [i|]; cbn [app prop assoc String.eqb Ascii.eqb Bool.eqb bind];
    rewrite (or_else_of_truthy _ _ Hname), (or_else_of_truthy _ _ Hcreated);
    destruct cards as [[]|]; reflexivity.
Qed.

Lemma mapM_migrateDeck_again later ds : forall mds,
  now <> "" ->
  mapM (migrateDeck now) ds = Ok mds ->
  mapM (migrateDeck later) mds = Ok mds.
Proof.
  induction ds as [|d ds IH]; simpl; intros mds Hnow.
  - now intros [= <-].
  - destruct (migrateDeck now d) as [m|e] eqn:E; cbn [bind]; [|discriminate].
    destruct (mapM (migrateDeck now) ds) as [ms|e]; cbn [bind];
      [|discriminate].
    intros [= <-]. cbn [mapM].
    rewrite (migrateDeck_again later m Hnow); cbn [bind].
    + now rewrite (IH ms Hnow eq_refl).
    + now exists d.
Qed.

(** X8: migrating twice is migrating once: [migrateToV1] returns its own
    result unchanged, also at a later time. *)
Theorem migrateToV1_idempotent (later : string) data migrated :
  now <> "" ->
  migrateToV1 now data = Ok migrated ->
  migrateToV1 later migrated = Ok migrated.
Proof.
  intros Hnow. unfold migrateToV1 at 1.
  destruct (prop (Some data) "decks") as [decks|e] eqn:Hd; cbn [bind];
    [|discriminate].
  destruct (or_else decks (JArr [])) as [| | | |ds0|] eqn:Hor;
    cbn [bind]; try discriminate.
  destruct (mapM (migrateDeck now) ds0) as [mds|e] eqn:Hm; cbn [bind];
    [|discriminate].
  pose proof (mapM_migrateDeck_again later ds0 mds Hnow Hm) as Hagain.
  intros Hret.
  assert (exists fields,
             migrated = JObj fields
             /\ assoc "decks" fields = Some (JArr mds)
             /\ assoc "version" fields = Some (JNum 1)) as (fs & -> & H1 & H2).
  { destruct data as [| | | | |fs0]; injection Hret as <-;
      eexists; (split; [reflexivity|]); split; fields; reflexivity. }
  unfold migrateToV1. cbn [prop bind]. rewrite H1. cbn [or_else truthy].
  rewrite Hagain. cbn [bind].
  rewrite (set_field_same "decks" _ _ H1), (set_field_same "version" _ _ H2).
  reflexivity.
Qed.

End WithPlatform.

(** A run of [saveState_then_loadState]: the registry as constructed is
    saved to an empty slot and loaded back. *)
Lemma saveState_then_loadState_witness :
  snd (saveState MoreSamples.stringify Samples.clock MoreSamples.roomy
         MoreSamples.saved_state (Slot None)) = true
  /\ loadState MoreSamples.parse Samples.clock Samples.no_number
       Samples.object_text
       (fst (saveState MoreSamples.stringify Samples.clock MoreSamples.roomy
               MoreSamples.saved_state (Slot None)))
     = Ok MoreSamples.saved_snapshot.
Proof.
  split; [reflexivity|].
  apply (saveState_then_loadState MoreSamples.parse MoreSamples.stringify
           Samples.clock Samples.no_number Samples.object_text
           MoreSamples.roomy MoreSamples.saved_state (Slot None)
           Samples.clock);
    [reflexivity | reflexivity | discriminate].
Defined.

(** A run of [saveState_failure]: the storage has no room for the text, and
    the snapshot saved before is gone. *)
Lemma saveState_failure_witness :
  snd (saveState MoreSamples.stringify Samples.clock MoreSamples.cramped
         MoreSamples.saved_state (Slot (Some MoreSamples.saved_text)))
  = false
  /\ fst (saveState MoreSamples.stringify Samples.clock MoreSamples.cramped
            MoreSamples.saved_state (Slot (Some MoreSamples.saved_text)))
     = Slot None.
Proof.
  split; [reflexivity|].
  apply (saveState_failure MoreSamples.parse MoreSamples.stringify
           Samples.clock Samples.no_number Samples.object_text
           MoreSamples.cramped MoreSamples.saved_state
           (Slot (Some MoreSamples.saved_text)) eq_refl).
Defined.

(** A run of [migrateToV1_normalises_decks] and [migrateToV1_idempotent] on
    the legacy snapshot. *)
Lemma migrateToV1_normalises_witness :
  migrateToV1 Samples.clock Samples.legacy_snapshot
  = Ok Samples.legacy_migrated
  /\ exists mds,
       prop (Some Samples.legacy_migrated) "decks" = Ok (Some (JArr mds))
       /\ Forall normalised mds.
Proof.
  split; [reflexivity|].
  destruct (migrateToV1_normalises_decks Samples.clock
              Samples.legacy_snapshot Samples.legacy_migrated eq_refl)
    as (mds & H1 & H2 & _).
  exists mds. split; assumption.
Defined.

Lemma migrateToV1_idempotent_witness :
  migrateToV1 "2026-03-01T08:00:00.000Z" Samples.legacy_migrated
  = Ok Samples.legacy_migrated.
Proof.
  apply (migrateToV1_idempotent Samples.clock "2026-03-01T08:00:00.000Z"
           Samples.legacy_snapshot Samples.legacy_migrated);
    [discriminate | reflexivity].
Defined.

End SaveFacts.

(** ** The registry: lookups, removals and notifications *)

Module RegistryMore.
Import Json DeckManager Persistence StorageFacts RegistryFacts IdFacts.
Import SaveFacts.

Lemma findIndex_prefix {A} (p : A -> result bool) xs : forall i,
  findIndex p xs = Ok (Some i) ->
  Forall (fun x => p x = Ok false) (take i xs).
Proof.
  induction xs as [|x xs IH]; simpl; intros i; [discriminate|].
  destruct (p x) as [[]|e] eqn:E; cbn [bind].
  - intros [= <-]. constructor.
  - destruct (findIndex p xs) as [[j|]|e]; cbn; try discriminate.
    intros [= <-]. cbn. constructor; [exact E|]. now apply IH.
  - discriminate.
Qed.

Lemma set_field_twice k v v' fields :
  set_field k v (set_field k v' fields) = set_field k v fields.
Proof.
  induction fields as [|[k0 v0] rest IH]; simpl.
  - now rewrite String.eqb_refl.
  - destruct (String.eqb k k0) eqn:E; simpl.
    + now rewrite String.eqb_refl.
    + now rewrite E, IH.
Qed.

Lemma findIndex_none {A} (p : A -> result bool) xs :
  findIndex p xs = Ok None -> Forall (fun x => p x = Ok false) xs.
Proof.
  induction xs as [|x xs IH]; simpl; [constructor|].
  destruct (p x) as [[]|e] eqn:E; cbn [bind]; try discriminate.
  destruct (findIndex p xs) as [[j|]|e]; cbn; try discriminate.
  intros _. constructor; [exact E|]. now apply IH.
Qed.

Lemma findIndex_skip {A} (p : A -> result bool) xs ys :
  Forall (fun x => p x = Ok false) xs ->
  findIndex p (xs ++ ys)
  = bind (findIndex p ys) (fun r => Ok (option_map (Nat.add (length xs)) r)).
Proof.
  induction 1 as [|x xs Hx _ IH]; simpl.
  - destruct (findIndex p ys) as [[j|]|e]; reflexivity.
  - rewrite Hx. cbn [bind]. rewrite IH.
    destruct (findIndex p ys) as [[j|]|e]; reflexivity.
Qed.

(** A deck that [id_is] accepts is an object. *)
Lemma id_is_object h id l :
  id_is h id l = Ok true -> exists fields, deref h l = Some (JObj fields).
Proof.
  unfold id_is. destruct (deref h l) as [[| | | | |fields]|]; cbn;
    try discriminate.
  now exists fields.
Qed.

(** [id_is] reads the heap through [deref] only. *)
Lemma id_is_ext h h' id :
  (forall l, prop (deref h' l) "id" = prop (deref h l) "id") ->
  forall l, id_is h' id l = id_is h id l.
Proof. intros H l. unfold id_is. now rewrite H. Qed.

Lemma deref_store_fields h l fields l' :
  l' <> l -> deref (<[l := Obj (JObj fields)]> h) l' = deref h l'.
Proof.
  intros Hne. unfold deref. now rewrite list_lookup_insert_ne by congruence.
Qed.

Lemma deref_store_fields_eq h l fields old :
  deref h l = Some old ->
  deref (<[l := Obj (JObj fields)]> h) l = Some (JObj fields).
Proof.
  unfold deref. intros H.
  destruct (h !! l) as [c|] eqn:E; [|discriminate].
  rewrite list_lookup_insert_eq; [reflexivity|].
  now apply lookup_lt_Some in E.
Qed.

(** Writing a field other than [id] leaves every deck's [id] as it was. *)
Lemma store_keeps_ids h l k v fields :
  deref h l = Some (JObj fields) -> k <> "id" ->
  forall l',
    prop (deref (<[l := Obj (JObj (set_field k v fields))]> h) l') "id"
    = prop (deref h l') "id".
Proof.
  intros Hl Hk l'. destruct (Nat.eq_dec l' l) as [->|Hne].
  - rewrite (deref_store_fields_eq _ _ _ _ Hl), Hl. cbn.
    now rewrite assoc_set_field_ne.
  - now rewrite deref_store_fields.
Qed.

Lemma read_arr_store_fields h l fields old a :
  deref h l = Some old ->
  read_arr (<[l := Obj (JObj fields)]> h) a = read_arr h a.
Proof.
  unfold deref, read_arr. intros H.
  destruct (Nat.eq_dec a l) as [->|Hne].
  - destruct (h !! l) as [[j|xs]|] eqn:E; try discriminate.
    rewrite list_lookup_insert_eq; [reflexivity|].
    now apply lookup_lt_Some in E.
  - now rewrite list_lookup_insert_ne by congruence.
Qed.

Lemma getDeckById_found id w l :
  getDeckById id w = Ok (Some l) ->
  exists elems i,
    read_arr (hp w) (decks (dm w)) = Ok elems
    /\ findIndex (id_is (hp w) id) elems = Ok (Some i)
    /\ elems !! i = Some l
    /\ id_is (hp w) id l = Ok true.
Proof.
  unfold getDeckById.
  destruct (read_arr (hp w) (decks (dm w))) as [elems|e]; cbn [bind];
    [|discriminate].
  intros H. destruct (find_findIndex _ _ _ H) as (i & Hi & Hl).
  destruct (findIndex_lookup _ _ _ Hi) as (x & Hx & Hp).
  exists elems, i. repeat split; try assumption. congruence.
Qed.

Lemma read_arr_throws h a e : read_arr h a = Throw e -> e = TypeError.
Proof. unfold read_arr. destruct (h !! a) as [[]|]; congruence. Qed.

Lemma findIndex_throws {A} (p : A -> result bool) xs :
  (forall x e, p x = Throw e -> e = TypeError) ->
  forall e, findIndex p xs = Throw e -> e = TypeError.
Proof.
  intros Hp. induction xs as [|x xs IH]; simpl; intros e; [discriminate|].
  destruct (p x) as [[]|e'] eqn:E; cbn [bind].
  - discriminate.
  - destruct (findIndex p xs) as [r|e'']; cbn; [discriminate|].
    intros [= <-]. now apply IH.
  - intros [= <-]. now apply (Hp x).
Qed.

Lemma prop_throws x k e : prop x k = Throw e -> e = TypeError.
Proof. destruct x as [[]|]; cbn; congruence. Qed.

Lemma id_is_throws h id l e : id_is h id l = Throw e -> e = TypeError.
Proof.
  unfold id_is. destruct (prop (deref h l) "id") eqn:E; cbn; [discriminate|].
  intros [= <-]. now apply prop_throws in E.
Qed.

Lemma card_id_is_throws cardId c e :
  card_id_is cardId c = Throw e -> e = TypeError.
Proof.
  unfold card_id_is. destruct (prop (Some c) "id") eqn:E; cbn;
    [discriminate|].
  intros [= <-]. now apply prop_throws in E.
Qed.

Lemma getDeckById_throws id w e :
  getDeckById id w = Throw e -> e = TypeError.
Proof.
  unfold getDeckById, find.
  destruct (read_arr (hp w) (decks (dm w))) as [elems|e'] eqn:E; cbn [bind].
  - destruct (findIndex _ elems) as [r|e'] eqn:F; cbn [bind]; [discriminate|].
    intros [= <-]. eapply findIndex_throws; [|exact F].
    intros x e0. apply id_is_throws.
  - intros [= <-]. now apply read_arr_throws in E.
Qed.

Lemma reached_prefix throwing obs :
  exists rest, obs = reached throwing obs ++ rest.
Proof.
  induction obs as [|c obs [rest IH]]; simpl.
  - now exists [].
  - destruct (throwing c).
    + now exists obs.
    + exists rest. cbn. now rewrite <- IH.
Qed.

Lemma new_calls_same w h d m : new_calls w (mkWorld h d (calls w) m) = [].
Proof. unfold new_calls. cbn. apply drop_all. Qed.

Lemma new_calls_refl w : new_calls w w = [].
Proof. unfold new_calls. apply drop_all. Qed.

Section WithObservers.
Variable throws : invocation -> bool.

Lemma publish_calls {X} ev data (x : X) w w' :
  calls w' = calls w ->
  observers (dm w') = observers (dm w) ->
  new_calls w (fst (publish throws ev data x w'))
  = map (call_in ev data w')
      (reached (fun c => throws (call_in ev data w' c)) (observers (dm w)))
  /\ thrown (snd (publish throws ev data x w'))
     = if forallb (fun c => negb (throws (call_in ev data w' c)))
            (observers (dm w))
       then None else Some (Error "thrown by an observer").
Proof.
  intros Hc Ho. rewrite publish_spec. cbn [fst snd]. rewrite Hc, Ho.
  split; [apply new_calls_app|].
  now destruct (forallb _ _).
Qed.

Ltac quiet_case :=
  left; cbn [fst snd thrown]; unfold subscribe, unsubscribe;
  unfold set_hp, set_dm;
  rewrite ?new_calls_refl, ?new_calls_same;
  split; [reflexivity|];
  split;
  [ intros ? Hm;
    first [ discriminate Hm
          | injection Hm as <-; split; [reflexivity|discriminate] ]
  | first [ discriminate | reflexivity ] ].

Ltac loud_case :=
  right; eexists _, _, _; split; [reflexivity|];
  split; [|apply publish_calls]; reflexivity.

(** What a registry call does to the call history: either it makes no call,
    and if it ends with an [Error] the world is as before; or it publishes
    its event from a world with the same subscribers. *)
Lemma run_op_cases o w :
  (new_calls w (run_op throws o w) = []
   /\ (forall m, exception_of throws o w = Some (Error m) ->
                 run_op throws o w = w /\ m <> "thrown by an observer")
   /\ (exception_of throws o w = None -> event_of o = None))
  \/ (exists ev data w',
         event_of o = Some ev
         /\ observers (dm w') = observers (dm w)
         /\ new_calls w (run_op throws o w)
            = map (call_in ev data w')
                (reached (fun c => throws (call_in ev data w' c))
                   (observers (dm w)))
         /\ exception_of throws o w
            = if forallb (fun c => negb (throws (call_in ev data w' c)))
                   (observers (dm w))
              then None else Some (Error "thrown by an observer")).
Proof.
  destruct o; cbn [run_op exception_of event_of].
  - unfold createDeck. destruct (blank name).
    + quiet_case.
    + cbn [alloc hp dm set_dm set_nextId calls made].
      match goal with |- context [read_arr ?h ?a] =>
        destruct (read_arr h a) as [elems|e] eqn:E end.
      * loud_case.
      * apply read_arr_throws in E. subst e. quiet_case.
  - unfold updateDeck.
    destruct (getDeckById id w) as [[l|]|e] eqn:E.
    + destruct name as [n|]; [|loud_case].
      destruct (blank n); [quiet_case|].
      destruct (deref (hp w) l) as [[| | | | |fs]|]; try quiet_case.
      loud_case.
    + quiet_case.
    + apply getDeckById_throws in E. subst e. quiet_case.
  - unfold deleteDeck.
    destruct (read_arr (hp w) (decks (dm w))) as [elems|e] eqn:E;
      [|apply read_arr_throws in E; subst e; quiet_case].
    destruct (findIndex (id_is (hp w) id) elems) as [[i|]|e] eqn:F.
    + destruct (elems !! i) as [l|]; [|quiet_case].
      cbn [hp dm set_hp selectedDeckId].
      destruct (selectedDeckId (dm w)) as [s|]; [destruct (Z.eqb s id)|];
        loud_case.
    + quiet_case.
    + eapply findIndex_throws in F; [subst e; quiet_case|].
      intros x e0. apply id_is_throws.
  - unfold selectDeck.
    destruct (getDeckById id w) as [[l|]|e] eqn:E.
    + loud_case.
    + quiet_case.
    + apply getDeckById_throws in E. subst e. quiet_case.
  - unfold addCardToDeck.
    destruct (getDeckById deckId w) as [[l|]|e] eqn:E.
    + destruct (deref (hp w) l) as [[| | | | |fs]|]; try quiet_case.
      destruct (assoc "cards" fs) as [[| | | |cs|]|]; try quiet_case.
      loud_case.
    + quiet_case.
    + apply getDeckById_throws in E. subst e. quiet_case.
  - unfold deleteCardFromDeck.
    destruct (getDeckById deckId w) as [[l|]|e] eqn:E.
    + destruct (deref (hp w) l) as [[| | | | |fs]|]; try quiet_case.
      destruct (assoc "cards" fs) as [[| | | |cs|]|]; try quiet_case.
      destruct (findIndex (card_id_is cardId) cs) as [[i|]|e] eqn:F.
      * destruct (cs !! i) as [c|]; [loud_case|quiet_case].
      * quiet_case.
      * eapply findIndex_throws in F; [subst e; quiet_case|].
        intros x e0. apply card_id_is_throws.
    + quiet_case.
    + apply getDeckById_throws in E. subst e. quiet_case.
  - unfold getAllDecks.
    destruct (read_arr (hp w) (decks (dm w))) as [elems|e] eqn:E.
    + cbn [alloc]. quiet_case.
    + apply read_arr_throws in E. subst e. quiet_case.
  - quiet_case.
  - quiet_case.
Qed.

(** X9: a registry call that ends with an [Error] of its own (a blank
    name, an unknown deck or card) has changed nothing and notified no
    one. *)
Theorem rejected_call_changes_nothing o w m :
  exception_of throws o w = Some (Error m) ->
  m <> "thrown by an observer" ->
  run_op throws o w = w.
Proof.
  intros He Hm.
  destruct (run_op_cases o w) as [(_ & H & _)|(ev & data & w' & _ & _ & _ & H)].
  - now apply (H m).
  - rewrite H in He. destruct (forallb _ _); congruence.
Qed.

(** X10: the callbacks a registry call invokes are an initial part of the
    subscriber list, each invoked once per occurrence and in subscription
    order, and every invocation carries the event of that call; a call that
    publishes nothing ([getAllDecks], [subscribe], [unsubscribe]) invokes
    none. *)
Theorem registry_call_notifies_in_order o w :
  let made_calls := new_calls w (run_op throws o w) in
  Forall (fun i => Some (inv_event i) = event_of o) made_calls
  /\ exists rest, observers (dm w) = map inv_callback made_calls ++ rest.
Proof.
  cbv zeta.
  destruct (run_op_cases o w)
    as [(-> & _)|(ev & data & w' & Hev & _ & -> & _)].
  - split; [constructor|]. now exists (observers (dm w)).
  - split.
    + apply Forall_forall. intros i Hi.
      apply list_elem_of_fmap in Hi as (c & -> & _). now rewrite Hev.
    + rewrite <- list_fmap_compose.
      destruct (reached_prefix (fun c => throws (call_in ev data w' c))
                  (observers (dm w))) as [rest Hrest].
      exists rest. rewrite Hrest at 1. f_equal.
      now rewrite <- (list_fmap_id (reached _ _)) at 1.
Qed.

(** X11: a call of a mutating operation that returns normally has invoked
    every subscriber, in subscription order. *)
Theorem successful_call_notifies_every_subscriber o w ev :
  event_of o = Some ev ->
  exception_of throws o w = None ->
  map inv_callback (new_calls w (run_op throws o w)) = observers (dm w)
  /\ Forall (fun i => inv_event i = ev) (new_calls w (run_op throws o w)).
Proof.
  intros Hev Hok.
  destruct (run_op_cases o w)
    as [(_ & _ & H)|(ev' & data & w' & Hev' & _ & -> & H)].
  - rewrite (H Hok) in Hev. discriminate.
  - rewrite Hok in H.
    destruct (forallb _ _) eqn:Hall; [|discriminate].
    rewrite (reached_all _ _ Hall). split.
    + rewrite <- list_fmap_compose. apply list_fmap_id.
    + apply Forall_forall. intros i Hi.
      apply list_elem_of_fmap in Hi as (c & -> & _). cbn. congruence.
Qed.

(** X12: once [selectDeck] has found the deck, the selection is that id
    whether or not an observer throws, and [getSelectedDeck] returns the
    deck; except for the id 0, which is stored as the selection but read
    back as no selection. *)
Theorem selectDeck_then_getSelectedDeck id l w :
  getDeckById id w = Ok (Some l) ->
  let after := fst (selectDeck throws id w) in
  selectedDeckId (dm after) = Some id
  /\ hp after = hp w
  /\ getSelectedDeck after = if Z.eqb id 0 then Ok None else Ok (Some l).
Proof.
  intros Hfound. cbv zeta. unfold selectDeck. rewrite Hfound.
  rewrite publish_spec. unfold getSelectedDeck, set_dm, set_selectedDeckId.
  cbn [fst hp dm selectedDeckId].
  split; [reflexivity|]. split; [reflexivity|].
  destruct (Z.eqb id 0); [reflexivity|].
  unfold getDeckById in *. cbn [hp dm decks]. exact Hfound.
Qed.

(** X13: [deleteDeck] removes the first deck with the given id and nothing
    else: the decks before and after it stay in order, no deck object
    changes, the counter stays, another selection stays; and if no later
    deck has the same id, a lookup of that id finds nothing afterwards. *)
Theorem deleteDeck_removes_the_first_match id elems i w :
  read_arr (hp w) (decks (dm w)) = Ok elems ->
  findIndex (id_is (hp w) id) elems = Ok (Some i) ->
  let after := fst (deleteDeck throws id w) in
  read_arr (hp after) (decks (dm after))
  = Ok (take i elems ++ drop (S i) elems)
  /\ (forall l, deref (hp after) l = deref (hp w) l)
  /\ nextId (dm after) = nextId (dm w)
  /\ selectedDeckId (dm after)
     = match selectedDeckId (dm w) with
       | Some s => if Z.eqb s id then None else Some s
       | None => None
       end
  /\ (findIndex (id_is (hp w) id) (drop (S i) elems) = Ok None ->
      getDeckById id after = Ok None).
Proof.
  intros Harr Hidx. cbv zeta.
  destruct (findIndex_lookup _ _ _ Hidx) as (l & Hl & Hp).
  pose proof (read_arr_cell _ _ _ Harr) as Hcell.
  unfold deleteDeck. rewrite Harr, Hidx, Hl.
  rewrite publish_spec. cbn [fst].
  set (h' := <[decks (dm w) := Arr (splice1 i elems)]> (hp w)).
  assert (Hderef : forall x, deref h' x = deref (hp w) x).
  { intros x. apply deref_insert_arr. eauto. }
  assert (Hread : read_arr h' (decks (dm w)) = Ok (splice1 i elems)).
  { unfold read_arr, h'. rewrite list_lookup_insert_eq; [reflexivity|].
    now apply lookup_lt_Some in Hcell. }
  cbn [hp dm set_hp]. fold h'.
  match goal with
  | |- context [hp ?W] =>
      match W with
      | match _ with Some _ => _ | None => _ end => set (w2 := W)
      end
  end.
  assert (hp w2 = h' /\ decks (dm w2) = decks (dm w)
          /\ nextId (dm w2) = nextId (dm w)
          /\ selectedDeckId (dm w2)
             = match selectedDeckId (dm w) with
               | Some s => if Z.eqb s id then None else Some s
               | None => None
               end) as (H1 & H2 & H3 & H4).
  { unfold w2.
    destruct (selectedDeckId (dm w)) as [s|] eqn:Hs; [destruct (Z.eqb s id)|];
      repeat split; cbn; try assumption; reflexivity. }
  rewrite H1, H2, H3, H4.
  split; [exact Hread|]. split; [exact Hderef|]. split; [reflexivity|].
  split; [reflexivity|].
  intros Hlater. unfold getDeckById. cbn [hp dm].
  rewrite H2, Hread. cbn [bind].
  unfold find.
  rewrite (findIndex_ext _ (id_is (hp w) id));
    [|intros x; apply id_is_ext; intros y; now rewrite Hderef].
  unfold splice1. rewrite findIndex_skip, Hlater; [reflexivity|].
  now apply findIndex_prefix.
Qed.


Lemma getDeckById_store_fields id w l k v fields :
  deref (hp w) l = Some (JObj fields) -> k <> "id" ->
  getDeckById id (store_fields l (set_field k v fields) w) = getDeckById id w.
Proof.
  intros Hl Hk. unfold getDeckById, store_fields. cbn [hp dm set_hp].
  rewrite (read_arr_store_fields _ _ _ _ _ Hl).
  destruct (read_arr (hp w) (decks (dm w))) as [elems|e]; cbn [bind];
    [|reflexivity].
  unfold find. erewrite findIndex_ext; [reflexivity|].
  apply id_is_ext. now apply store_keeps_ids.
Qed.

(** X15: [updateDeck] with a non-blank name renames the deck in place: the
    deck object gets the trimmed name and keeps every other field (its [id]
    and its cards among them), no other object changes, the collection and
    the registry's fields stay as they are, and the id still finds the
    deck. *)
Theorem updateDeck_renames_in_place id n l w :
  getDeckById id w = Ok (Some l) ->
  blank n = false ->
  let after := fst (updateDeck throws id (Some n) w) in
  prop (deref (hp after) l) "name" = Ok (Some (JStr (Str.trim n)))
  /\ (forall k, k <> "name" ->
        prop (deref (hp after) l) k = prop (deref (hp w) l) k)
  /\ (forall l', l' <> l -> deref (hp after) l' = deref (hp w) l')
  /\ read_arr (hp after) (decks (dm after))
     = read_arr (hp w) (decks (dm w))
  /\ dm after = dm w
  /\ getDeckById id after = Ok (Some l).
Proof.
  intros Hfound Hname. cbv zeta.
  destruct (getDeckById_found _ _ _ Hfound) as (elems & i & _ & _ & _ & Hid).
  destruct (id_is_object _ _ _ Hid) as [fs Hl].
  unfold updateDeck. rewrite Hfound, Hname, Hl. rewrite publish_spec.
  cbn [fst].
  pose proof (getDeckById_store_fields id w l "name" (JStr (Str.trim n)) fs
                Hl ltac:(discriminate)) as Hget.
  unfold getDeckById in *. unfold store_fields in *.
  cbn [hp dm set_hp] in *.
  rewrite (deref_store_fields_eq _ _ _ _ Hl). cbn [prop].
  split; [now rewrite assoc_set_field_eq|].
  split; [intros k Hk; now rewrite assoc_set_field_ne by congruence|].
  split; [intros l' Hne; now apply deref_store_fields|].
  split; [now apply (read_arr_store_fields _ _ _ _ _ Hl)|].
  split; [reflexivity|]. rewrite Hget. exact Hfound.
Qed.

(** X16: adding a card to a deck and then deleting the card with the
    generated id gives back the heap and the registry exactly, provided no
    card of the deck had that id; in between, the new card is the last of the
    deck's cards.  Exceptions thrown by observers make no difference. *)
Theorem addCard_then_deleteCard deckId front back cardId now l fs cs w :
  getDeckById deckId w = Ok (Some l) ->
  deref (hp w) l = Some (JObj fs) ->
  assoc "cards" fs = Some (JArr cs) ->
  findIndex (card_id_is cardId) cs = Ok None ->
  let card :=
    JObj [ ("id", JStr cardId);
           ("front", JStr (text_or_empty front));
           ("back", JStr (text_or_empty back));
           ("createdAt", JStr now) ] in
  let added := fst (addCardToDeck throws deckId front back cardId now w) in
  let removed := fst (deleteCardFromDeck throws deckId cardId added) in
  prop (deref (hp added) l) "cards" = Ok (Some (JArr (cs ++ [card])))
  /\ hp removed = hp w
  /\ dm removed = dm w.
Proof.
  intros Hfound Hl Hcards Hfresh. cbv zeta.
  set (card := JObj [ ("id", JStr cardId);
                      ("front", JStr (text_or_empty front));
                      ("back", JStr (text_or_empty back));
                      ("createdAt", JStr now) ]).
  unfold addCardToDeck. rewrite Hfound, Hl, Hcards. fold card.
  rewrite publish_spec. cbn [fst].
  set (fs1 := set_field "cards" (JArr (cs ++ [card])) fs).
  assert (Hl1 : deref (hp (store_fields l fs1 w)) l = Some (JObj fs1)).
  { unfold store_fields. cbn [hp set_hp].
    apply (deref_store_fields_eq _ _ _ _ Hl). }
  assert (Hget : getDeckById deckId (store_fields l fs1 w) = Ok (Some l)).
  { unfold fs1. rewrite getDeckById_store_fields; [exact Hfound|exact Hl|].
    discriminate. }
  cbn [hp]. split.
  { rewrite Hl1. cbn [prop]. unfold fs1. now rewrite assoc_set_field_eq. }
  match goal with
  | |- context [deleteCardFromDeck throws deckId cardId ?W] => set (w1 := W)
  end.
  assert (Hget1 : getDeckById deckId w1 = Ok (Some l)) by exact Hget.
  assert (Hl2 : deref (hp w1) l = Some (JObj fs1)) by exact Hl1.
  assert (Hc1 : assoc "cards" fs1 = Some (JArr (cs ++ [card]))).
  { unfold fs1. apply assoc_set_field_eq. }
  assert (Hidx : findIndex (card_id_is cardId) (cs ++ [card])
                 = Ok (Some (length cs))).
  { rewrite findIndex_skip by now apply findIndex_none.
    cbn. rewrite String.eqb_refl. cbn. now rewrite Nat.add_0_r. }
  unfold deleteCardFromDeck.
  rewrite Hget1, Hl2, Hc1, Hidx, list_lookup_middle by reflexivity.
  rewrite publish_spec. cbn [fst hp dm].
  unfold w1, store_fields, set_hp. cbn [hp dm].
  unfold splice1. rewrite take_app_length.
  rewrite drop_ge by (rewrite length_app; cbn; lia). rewrite app_nil_r.
  unfold fs1.
  assert (Hback : set_field "cards" (JArr cs)
                    (set_field "cards" (JArr (cs ++ [card])) fs) = fs).
  { rewrite set_field_twice. now apply set_field_same. }
  rewrite Hback. split; [|reflexivity].
  rewrite list_insert_insert_eq. apply list_insert_id.
  unfold deref in Hl. destruct (hp w !! l) as [[j|]|]; congruence.
Qed.

End WithObservers.
(** A run of [rejected_call_changes_nothing]: a deck name of two spaces. *)
Lemma rejected_call_witness :
  exception_of Samples.first_throws (OpCreate "  " Samples.clock)
    Samples.two_observers
  = Some (Error "Deck name cannot be empty")
  /\ run_op Samples.first_throws (OpCreate "  " Samples.clock)
       Samples.two_observers
     = Samples.two_observers.
Proof.
  split; [reflexivity|].
  apply (rejected_call_changes_nothing Samples.first_throws
           (OpCreate "  " Samples.clock) Samples.two_observers
           "Deck name cannot be empty");
    [reflexivity|discriminate].
Defined.

(** A run of [successful_call_notifies_every_subscriber]: two subscribers,
    neither throws. *)
Lemma successful_call_witness :
  exception_of Samples.quiet (OpCreate "Spanish" Samples.clock)
    Samples.two_observers = None
  /\ map inv_callback
       (new_calls Samples.two_observers
          (run_op Samples.quiet (OpCreate "Spanish" Samples.clock)
             Samples.two_observers))
     = [0; 1].
Proof.
  split; [reflexivity|].
  apply (successful_call_notifies_every_subscriber Samples.quiet
           (OpCreate "Spanish" Samples.clock) Samples.two_observers
           deckCreated); reflexivity.
Defined.

(** A run of [selectDeck_then_getSelectedDeck]: deck 2 of the sample decks,
    with an observer that throws. *)
Lemma selectDeck_witness :
  getDeckById 2 Samples.two_observers = Ok (Some 1)
  /\ selectedDeckId
       (dm (fst (selectDeck Samples.first_throws 2 Samples.two_observers)))
     = Some 2%Z.
Proof.
  split; [reflexivity|].
  apply (selectDeck_then_getSelectedDeck Samples.first_throws 2 1
           Samples.two_observers eq_refl).
Defined.

(** A run of [deleteDeck_removes_the_first_match]: the second of the three
    sample decks. *)
Lemma deleteDeck_removal_witness :
  findIndex (id_is (hp (constructor Samples.clock)) 2) [0; 1; 2]
  = Ok (Some 1)
  /\ read_arr
       (hp (fst (deleteDeck Samples.quiet 2 (constructor Samples.clock))))
       (decks
          (dm (fst (deleteDeck Samples.quiet 2 (constructor Samples.clock)))))
     = Ok [0; 2].
Proof.
  split; [reflexivity|].
  apply (deleteDeck_removes_the_first_match Samples.quiet 2 [0; 1; 2] 1
           (constructor Samples.clock) eq_refl eq_refl).
Defined.


(** A run of [updateDeck_renames_in_place]: deck 2 is renamed. *)
Lemma updateDeck_witness :
  getDeckById 2 (constructor Samples.clock) = Ok (Some 1)
  /\ prop
       (deref
          (hp (fst (updateDeck Samples.quiet 2 (Some " Botany ")
                      (constructor Samples.clock))))
          1)
       "name"
     = Ok (Some (JStr "Botany")).
Proof.
  split; [reflexivity|].
  apply (updateDeck_renames_in_place Samples.quiet 2 " Botany " 1
           (constructor Samples.clock) eq_refl eq_refl).
Defined.

(** A run of [addCard_then_deleteCard]: a fourth card for deck 1, which has
    three. *)
Lemma addCard_then_deleteCard_witness :
  getDeckById 1 Samples.three_cards = Ok (Some 0)
  /\ hp (fst (deleteCardFromDeck Samples.quiet 1 "card-4-d"
                (fst (addCardToDeck Samples.quiet 1 (Some "si") (Some "yes")
                        "card-4-d" Samples.clock Samples.three_cards))))
     = hp Samples.three_cards.
Proof.
  split; [reflexivity|].
  refine (proj1 (proj2 (addCard_then_deleteCard Samples.quiet 1 (Some "si")
                          (Some "yes") "card-4-d" Samples.clock 0 _ _
                          Samples.three_cards eq_refl eq_refl eq_refl
                          eq_refl))).
Defined.

End RegistryMore.

(** ** Saving the registry and loading it back *)

Module PersistFacts.
Import Json StorageManager StorageWrite DeckManager UIManager Persistence.
Import StorageFacts RegistryFacts IdFacts SaveFacts RegistryMore.

(** Setting the counter and the selection leaves the heap and the
    collection alone. *)
Lemma restore_counter_and_selection_keeps savedState w :
  hp (restore_counter_and_selection savedState w) = hp w
  /\ decks (dm (restore_counter_and_selection savedState w)) = decks (dm w).
Proof.
  unfold restore_counter_and_selection.
  destruct (read_arr (hp w) (decks (dm w))) as [elems|e]; [|now split].
  destruct (mapM _ elems) as [ids|e]; [|now split].
  destruct (prop (Some savedState) "selectedDeckId") as [sel|e];
    [|now split].
  destruct (truthy sel && isInteger sel); [|now split].
  destruct (getDeckById _ _) as [[l|]|e]; now split.
Qed.

(** The collection [assign_decks] builds shows the given decks, in order. *)
Lemma contents_assign_decks ds w :
  contents (hp (assign_decks ds w)) (decks (dm (assign_decks ds w)))
  = Some (map Some ds).
Proof.
  unfold assign_decks, contents. cbn [hp dm set_hp set_dm set_decks decks].
  rewrite list_lookup_middle by reflexivity. f_equal.
  apply list_eq. intros i. rewrite !list_lookup_fmap.
  destruct (decide (i < length ds)) as [Hlt|Hge].
  - rewrite lookup_seq_lt by exact Hlt. cbn.
    destruct (lookup_lt_is_Some_2 ds i Hlt) as [d Hd]. rewrite Hd. cbn.
    f_equal. rewrite <- app_assoc. now apply deref_assigned.
  - rewrite lookup_seq_ge by lia.
    rewrite (lookup_ge_None_2 ds) by lia. reflexivity.
Qed.

(** A whole number that is not zero, as a selection. *)
Lemma selection_not_zero sel :
  truthy sel && isInteger sel = true -> to_Z sel <> 0%Z.
Proof.
  destruct sel as [[| |q| | |]|]; cbn -[Qeq_bool]; try discriminate;
    try (rewrite andb_false_r; discriminate).
  unfold Q_is_integer. intros H Hz.
  apply andb_prop in H as [Hnz Hint]. rewrite Hz in Hint.
  apply Qeq_bool_iff in Hint.
  apply negb_true_iff in Hnz.
  assert (Qeq_bool q 0 = true); [|congruence].
  apply Qeq_bool_iff. now rewrite <- Hint.
Qed.

Lemma findIndex_Forall2 {A B} (p : A -> result bool) (q : B -> result bool)
  xs ys :
  Forall2 (fun x y => p x = q y) xs ys -> findIndex p xs = findIndex q ys.
Proof.
  induction 1 as [|x y xs ys Hxy _ IH]; simpl; [reflexivity|].
  now rewrite Hxy, IH.
Qed.

Lemma mapM_returns {A B} (f : A -> result B) xs :
  Forall (fun x => exists y, f x = Ok y) xs -> exists ys, mapM f xs = Ok ys.
Proof.
  induction 1 as [|x xs [y Hy] _ [ys IH]]; simpl.
  - now exists [].
  - rewrite Hy, IH. cbn. now eexists.
Qed.

(** The heap [assign_decks] builds: the new collection lists the new deck
    objects, and the [k]-th of them is the [k]-th given deck. *)
Lemma assign_decks_heap ds w :
  let first := length (hp w) in
  read_arr (hp (assign_decks ds w)) (decks (dm (assign_decks ds w)))
  = Ok (seq first (length ds))
  /\ forall k d, ds !! k = Some d ->
       deref (hp (assign_decks ds w)) (first + k) = Some d.
Proof.
  cbv zeta. unfold assign_decks, read_arr.
  cbn [hp dm set_hp set_dm set_decks decks].
  rewrite list_lookup_middle by reflexivity. split; [reflexivity|].
  intros k d Hk. rewrite <- app_assoc. now apply deref_assigned.
Qed.

Section WithPlatform.
Variable JSON_parse : string -> option json.
Variable JSON_stringify : json -> string.
Variable now : string.
Variable StringToNumber : string -> option Q.
Variable ObjectToString : json -> string.
Variable quota_exceeded : string -> bool.

(** X17: [loadPersistedState] never selects a deck that is not there: the
    selection is left as it was, or it is a non-zero id that
    [getDeckById] finds among the loaded decks, so that [getSelectedDeck]
    returns that deck. *)
Theorem loadPersistedState_selects_a_loaded_deck ls w :
  let loaded :=
    loadPersistedState JSON_parse now StringToNumber ObjectToString ls w in
  selectedDeckId (dm loaded) = selectedDeckId (dm w)
  \/ exists id l,
       selectedDeckId (dm loaded) = Some id
       /\ id <> 0%Z
       /\ getDeckById id loaded = Ok (Some l)
       /\ getSelectedDeck loaded = Ok (Some l).
Proof.
  cbv zeta. unfold loadPersistedState.
  destruct (loadState _ _ _ _ ls) as [savedState|e]; [|now left].
  unfold restore.
  destruct (prop (Some savedState) "decks") as [[[| | | |ds|]|]|e];
    try (now left).
  set (w1 := assign_decks ds w).
  assert (Hsel : selectedDeckId (dm w1) = selectedDeckId (dm w))
    by reflexivity.
  rewrite <- Hsel. clearbody w1. clear Hsel.
  unfold restore_counter_and_selection.
  destruct (read_arr (hp w1) (decks (dm w1))) as [elems|e]; [|now left].
  destruct (mapM _ elems) as [ids|e]; [|now left].
  destruct (prop (Some savedState) "selectedDeckId") as [sel|e];
    [|now left].
  destruct (truthy sel && isInteger sel) eqn:Hsel; [|now left].
  match goal with |- context [getDeckById (to_Z sel) ?W] =>
    destruct (getDeckById (to_Z sel) W) as [[l|]|e] eqn:Hget end;
    try (now left).
  right. exists (to_Z sel), l.
  pose proof (selection_not_zero sel Hsel) as Hnz.
  split; [reflexivity|]. split; [exact Hnz|].
  split; [exact Hget|].
  unfold getSelectedDeck.
  cbn [dm set_dm set_selectedDeckId selectedDeckId].
  apply Z.eqb_neq in Hnz. rewrite Hnz. exact Hget.
Qed.

(** X18: what [savePersistedState] saves, [loadPersistedState] loads: after
    a successful save, loading into any registry gives a collection that
    shows the same deck objects, in the same order, as the registry that was
    saved. *)
Theorem savePersistedState_then_loadPersistedState q w ls elems w0
  (later : string) :
  let saved :=
    savePersistedState JSON_stringify now quota_exceeded q w ls in
  let stamped := stateWithVersion now (state_of q w) in
  let loaded :=
    loadPersistedState JSON_parse later StringToNumber ObjectToString
      (fst saved) w0 in
  read_arr (hp w) (decks (dm w)) = Ok elems ->
  Forall (fun l => is_Some (deref (hp w) l)) elems ->
  snd saved = true ->
  JSON_parse (JSON_stringify stamped) = Some stamped ->
  JSON_stringify stamped <> "" ->
  contents (hp loaded) (decks (dm loaded))
  = contents (hp w) (decks (dm w)).
Proof.
  cbv zeta. intros Harr Hlive Hsaved Hparse Hne.
  unfold savePersistedState in *.
  destruct (saveState_true JSON_stringify now quota_exceeded _ ls Hsaved)
    as [Hslot Hwf].
  unfold loadPersistedState. rewrite Hslot.
  rewrite (loadState_of_stored JSON_parse StringToNumber ObjectToString
             _ _ later Hne Hparse Hwf (stateWithVersion_current now _)).
  pose proof (read_arr_cell _ _ _ Harr) as Hcell.
  set (ds := map (fun l => match deref (hp w) l with
                           | Some j => j
                           | None => JNull
                           end) elems).
  assert (Hdecks : prop (Some (stateWithVersion now (state_of q w))) "decks"
                   = Ok (Some (JArr ds))).
  { unfold stateWithVersion, state_of, decks_json. rewrite Hcell.
    cbn [prop app]. fields. cbn. reflexivity. }
  unfold restore. rewrite Hdecks.
  destruct (restore_counter_and_selection_keeps
              (stateWithVersion now (state_of q w)) (assign_decks ds w0))
    as [-> ->].
  rewrite contents_assign_decks. unfold contents. rewrite Hcell. f_equal.
  unfold ds. rewrite <- list_fmap_compose. apply Forall_fmap_ext_1.
  eapply Forall_impl; [exact Hlive|]. intros l [j Hj]. cbn. now rewrite Hj.
Qed.

(** X19: the selection survives a save and a load: when the selected id
    is not zero and names a deck of the saved registry, and no element of the
    collection is [null], the registry loaded from a successful save has the
    same selection, and [getSelectedDeck] returns a deck equal to the one
    that was selected. *)
Theorem saved_selection_is_restored q w ls elems id l w0 (later : string) :
  let saved :=
    savePersistedState JSON_stringify now quota_exceeded q w ls in
  let stamped := stateWithVersion now (state_of q w) in
  let loaded :=
    loadPersistedState JSON_parse later StringToNumber ObjectToString
      (fst saved) w0 in
  read_arr (hp w) (decks (dm w)) = Ok elems ->
  Forall (fun x => exists j, deref (hp w) x = Some j /\ j <> JNull) elems ->
  selectedDeckId (dm w) = Some id ->
  id <> 0%Z ->
  getDeckById id w = Ok (Some l) ->
  snd saved = true ->
  JSON_parse (JSON_stringify stamped) = Some stamped ->
  JSON_stringify stamped <> "" ->
  selectedDeckId (dm loaded) = Some id
  /\ exists l',
       getSelectedDeck loaded = Ok (Some l')
       /\ deref (hp loaded) l' = deref (hp w) l.
Proof.
  cbv zeta. intros Harr Hlive Hsel Hnz Hfound Hsaved Hparse Hne.
  unfold savePersistedState in *.
  destruct (saveState_true JSON_stringify now quota_exceeded _ ls Hsaved)
    as [Hslot Hwf].
  unfold loadPersistedState. rewrite Hslot.
  rewrite (loadState_of_stored JSON_parse StringToNumber ObjectToString
             _ _ later Hne Hparse Hwf (stateWithVersion_current now _)).
  pose proof (read_arr_cell _ _ _ Harr) as Hcell.
  set (ds := map (fun x => match deref (hp w) x with
                           | Some j => j
                           | None => JNull
                           end) elems).
  assert (Hdecks : prop (Some (stateWithVersion now (state_of q w))) "decks"
                   = Ok (Some (JArr ds))).
  { unfold stateWithVersion, state_of, decks_json. rewrite Hcell.
    cbn [prop app]. fields. cbn. reflexivity. }
  assert (Hstored :
            prop (Some (stateWithVersion now (state_of q w))) "selectedDeckId"
            = Ok (Some (JNum (inject_Z id)))).
  { unfold stateWithVersion, state_of, decks_json. rewrite Hcell, Hsel.
    cbn [prop app]. fields. cbn. reflexivity. }
  unfold restore. rewrite Hdecks.
  destruct (assign_decks_heap ds w0) as [Hread Hobj].
  set (first := length (hp w0)) in *.
  set (w1 := assign_decks ds w0) in *.
  assert (Hlen : length ds = length elems) by (unfold ds; apply length_map).
  assert (Hsame : forall k x, elems !! k = Some x ->
                    deref (hp w1) (first + k) = deref (hp w) x
                    /\ exists j, deref (hp w) x = Some j /\ j <> JNull).
  { intros k x Hk.
    destruct (proj1 (Forall_forall _ _) Hlive x) as (j & Hj & Hnn).
    { eapply list_elem_of_lookup_2; eauto. }
    split; [|eauto]. rewrite Hj. apply Hobj.
    unfold ds. rewrite list_lookup_fmap, Hk. cbn. now rewrite Hj. }
  unfold restore_counter_and_selection. rewrite Hread.
  destruct (mapM_returns (fun d => prop (deref (hp w1) d) "id")
              (seq first (length ds))) as [ids Hids].
  { apply Forall_forall. intros x Hx.
    apply elem_of_seq in Hx.
    destruct (lookup_lt_is_Some_2 elems (x - first)) as [y Hy]; [lia|].
    destruct (Hsame _ _ Hy) as (Hd & j & Hj & Hnn).
    replace (first + (x - first)) with x in Hd by lia.
    rewrite Hd, Hj. destruct j; cbn; try congruence; eauto. }
  rewrite Hids, Hstored.
  assert (Hint : truthy (Some (JNum (inject_Z id)))
                 && isInteger (Some (JNum (inject_Z id))) = true).
  { cbn -[Qeq_bool]. unfold Q_is_integer. rewrite Qfloor_Z.
    rewrite Qeq_bool_refl, andb_true_r. apply negb_true_iff.
    destruct (Qeq_bool (inject_Z id) 0) eqn:E; [|reflexivity].
    apply Qeq_bool_iff in E. exfalso. apply Hnz.
    unfold Qeq in E. cbn in E. lia. }
  rewrite Hint.
  assert (Hto : to_Z (Some (JNum (inject_Z id))) = id) by apply Qfloor_Z.
  rewrite Hto.
  destruct (getDeckById_found _ _ _ Hfound) as (elems' & i & Ha & Hi & Hl & _).
  rewrite Harr in Ha. injection Ha as <-.
  set (w2 := set_dm _ w1).
  assert (Hget : getDeckById id w2 = Ok (Some (first + i))).
  { unfold getDeckById. change (hp w2) with (hp w1).
    change (decks (dm w2)) with (decks (dm w1)). rewrite Hread.
    cbn [bind]. unfold find.
    rewrite (findIndex_Forall2 _ (id_is (hp w) id) _ elems), Hi.
    - cbn [bind]. f_equal. apply lookup_seq_lt.
      apply lookup_lt_Some in Hl. lia.
    - apply Forall2_same_length_lookup. split.
      + now rewrite length_seq.
      + intros k x y Hx Hy. apply lookup_seq in Hx as [-> _].
        unfold id_is. now rewrite (proj1 (Hsame _ _ Hy)). }
  rewrite Hget. cbn [dm set_dm set_selectedDeckId selectedDeckId].
  split; [reflexivity|]. exists (first + i). split.
  - unfold getSelectedDeck.
    cbn [dm set_dm set_selectedDeckId selectedDeckId].
    apply Z.eqb_neq in Hnz. rewrite Hnz. exact Hget.
  - apply (Hsame _ _ Hl).
Qed.

End WithPlatform.

(** A run of [savePersistedState_then_loadPersistedState]: the registry as
    constructed is saved, and loaded into a registry that has deck 2
    selected. *)
Lemma savePersistedState_witness :
  snd (savePersistedState MoreSamples.stringify Samples.clock
         MoreSamples.roomy "" (constructor Samples.clock) (Slot None))
  = true
  /\ contents
       (hp (loadPersistedState MoreSamples.parse Samples.clock
              Samples.no_number Samples.object_text
              (fst (savePersistedState MoreSamples.stringify Samples.clock
                      MoreSamples.roomy "" (constructor Samples.clock)
                      (Slot None)))
              Samples.deck2_selected))
       (decks
          (dm (loadPersistedState MoreSamples.parse Samples.clock
                 Samples.no_number Samples.object_text
                 (fst (savePersistedState MoreSamples.stringify Samples.clock
                         MoreSamples.roomy "" (constructor Samples.clock)
                         (Slot None)))
                 Samples.deck2_selected)))
     = contents (hp (constructor Samples.clock))
         (decks (dm (constructor Samples.clock))).
Proof.
  split; [reflexivity|].
  apply (savePersistedState_then_loadPersistedState MoreSamples.parse
           MoreSamples.stringify Samples.clock Samples.no_number
           Samples.object_text MoreSamples.roomy "" (constructor Samples.clock)
           (Slot None) [0; 1; 2] Samples.deck2_selected Samples.clock).
  - reflexivity.
  - repeat constructor; eexists; reflexivity.
  - reflexivity.
  - reflexivity.
  - discriminate.
Defined.

(** A run of [saved_selection_is_restored]: the registry with deck 2
    selected is what was saved. *)
Lemma saved_selection_witness :
  snd (savePersistedState MoreSamples.stringify_selected Samples.clock
         MoreSamples.roomy "" Samples.deck2_selected (Slot None))
  = true
  /\ selectedDeckId
       (dm (loadPersistedState MoreSamples.parse_selected Samples.clock
              Samples.no_number Samples.object_text
              (fst (savePersistedState MoreSamples.stringify_selected
                      Samples.clock MoreSamples.roomy ""
                      Samples.deck2_selected (Slot None)))
              (constructor Samples.clock)))
     = Some 2%Z.
Proof.
  split; [reflexivity|].
  apply (saved_selection_is_restored MoreSamples.parse_selected
           MoreSamples.stringify_selected Samples.clock Samples.no_number
           Samples.object_text MoreSamples.roomy "" Samples.deck2_selected
           (Slot None) [0; 1; 2] 2 1 (constructor Samples.clock)
           Samples.clock).
  - reflexivity.
  - repeat constructor; eexists; (split; [reflexivity|discriminate]).
  - reflexivity.
  - discriminate.
  - reflexivity.
  - reflexivity.
  - reflexivity.
  - discriminate.
Defined.

End PersistFacts.

(** ** Sessions with the embedded modal *)

Module SessionFacts.
Import Dom ModalSession ModalFacts.

(** A key that finds the listener detached or the trap inactive does
    nothing. *)
Lemma press_inert dom e m :
  listening m = false \/ focusTrapActive m = false ->
  AccessibleModal.press dom e m = m.
Proof.
  unfold AccessibleModal.press, AccessibleModal.handleKeyDown.
  intros [->| ->]; [reflexivity|]. now destruct (listening m).
Qed.

Lemma close_flags m :
  focusTrapActive (AccessibleModal.close m) = false
  /\ listening (AccessibleModal.close m) = false
  /\ displayed (AccessibleModal.close m) = false
  /\ scrollLocked (AccessibleModal.close m) = false
  /\ activeElement (AccessibleModal.close m) = activeElement m
  /\ container (AccessibleModal.close m) = container m.
Proof.
  unfold AccessibleModal.close. cbn.
  destruct (previouslyFocusedElement m); cbn; auto 10.
Qed.

Lemma trapFocus_flags dom e m :
  focusTrapActive (AccessibleModal.trapFocus dom e m) = focusTrapActive m
  /\ listening (AccessibleModal.trapFocus dom e m) = listening m
  /\ displayed (AccessibleModal.trapFocus dom e m) = displayed m
  /\ scrollLocked (AccessibleModal.trapFocus dom e m) = scrollLocked m
  /\ container (AccessibleModal.trapFocus dom e m) = container m.
Proof.
  unfold AccessibleModal.trapFocus.
  destruct (String.eqb (key e) "Tab"); [|auto 10].
  cbn -[AccessibleModal.getFocusableElements List.last has_focus].
  destruct (AccessibleModal.getFocusableElements dom) as [|x xs];
    [cbn; auto 10|].
  destruct (shiftKey e);
    match goal with |- context [if ?b then _ else _] => destruct b end;
    cbn; auto 10.
Qed.

Lemma step_container i m : container (step i m) = container m.
Proof.
  destruct i as [dom e|dom trigger|]; cbn [step].
  - unfold AccessibleModal.press, AccessibleModal.handleKeyDown.
    destruct (listening m); [|reflexivity].
    destruct (negb (focusTrapActive m)); [reflexivity|].
    destruct (String.eqb (key e) "Escape").
    + now rewrite (proj2 (proj2 (proj2 (proj2 (proj2 (close_flags _)))))).
    + destruct (String.eqb (key e) "Tab"); [|reflexivity].
      apply trapFocus_flags.
  - unfold AccessibleModal.open.
    cbn -[AccessibleModal.getFocusableElements List.find].
    destruct (AccessibleModal.getFocusableElements dom) as [|x xs];
      [reflexivity|].
    now destruct (List.find _ _).
  - apply close_flags.
Qed.

Lemma step_flags_agree i m : flags_agree m -> flags_agree (step i m).
Proof.
  unfold flags_agree. intros (H1 & H2 & H3).
  destruct i as [dom e|dom trigger|]; cbn [step].
  - unfold AccessibleModal.press, AccessibleModal.handleKeyDown.
    destruct (listening m) eqn:Hl; [|repeat split; congruence].
    destruct (focusTrapActive m) eqn:Ha; cbn [negb];
      [|repeat split; congruence].
    destruct (String.eqb (key e) "Escape").
    + destruct (close_flags (preventDefault m)) as (-> & -> & -> & -> & _).
      auto.
    + destruct (String.eqb (key e) "Tab"); [|repeat split; congruence].
      destruct (trapFocus_flags dom e m) as (-> & -> & -> & -> & _).
      repeat split; congruence.
  - unfold AccessibleModal.open.
    cbn -[AccessibleModal.getFocusableElements List.find].
    destruct (AccessibleModal.getFocusableElements dom) as [|x xs];
      [cbn; auto|].
    destruct (List.find _ _); cbn; auto.
  - destruct (close_flags m) as (-> & -> & -> & -> & _). auto.
Qed.

(** X20: the trap flag, the key listener on the document, the display of
    the modal and the scroll lock of the page go together: if they agree
    before, they agree after any sequence of key presses and calls of
    [open] and [close], so no listener outlives the trap. *)
Theorem embedded_flags_stay_together inputs : forall m,
  flags_agree m -> flags_agree (run inputs m).
Proof.
  induction inputs as [|i inputs IH]; intros m H; [exact H|].
  cbn [run fold_left]. apply IH. now apply step_flags_agree.
Qed.

(** X21: once [close] has run, key presses change nothing, Escape and Tab
    included, however many there are. *)
Theorem embedded_closed_modal_ignores_keys keys m :
  forallb is_key keys = true ->
  run keys (AccessibleModal.close m) = AccessibleModal.close m.
Proof.
  destruct (close_flags m) as (Ha & _).
  revert Ha. generalize (AccessibleModal.close m). clear m.
  induction keys as [|i keys IH]; intros m Ha Hk; [reflexivity|].
  cbn in Hk. apply andb_prop in Hk as [Hi Hk].
  destruct i as [dom e| |]; try discriminate.
  cbn [run fold_left step]. rewrite press_inert by now right.
  now apply IH.
Qed.

Lemma last_in {A} (x : A) xs d : In (List.last (x :: xs) d) (x :: xs).
Proof.
  revert x. induction xs as [|y ys IH]; intros x; [now left|].
  right. apply (IH y).
Qed.

Lemma focusable_in dom x :
  In x (AccessibleModal.getFocusableElements dom) ->
  In x dom /\ AccessibleModal.matches_selector x = true
  /\ AccessibleModal.visible x = true.
Proof.
  unfold AccessibleModal.getFocusableElements. intros H.
  apply filter_In in H as [H Hv]. apply filter_In in H as [H Hs]. auto.
Qed.

(** Each action of a list is trapped: a focus move by [Hin] or because it
    goes to the modal itself. *)
Ltac settle Hin :=
  repeat (apply List.Forall_cons;
          [ first [ exact I
                  | split; [reflexivity|]; split; [reflexivity|];
                    first [ now left | apply Hin; assumption ] ]
          | ]);
  apply List.Forall_nil.

(** One input appends to the history, and what it appends is trapped. *)
Lemma step_history i m :
  exists l,
    history (step i m) = history m ++ l
    /\ Forall (trapped (container m) (doms_of [i])) l.
Proof.
  assert (Hin : forall dom x,
             In x (AccessibleModal.getFocusableElements dom) ->
             node x = container m
             \/ exists dom' y,
                  In dom' [dom] /\ In y dom' /\ node y = node x
                  /\ AccessibleModal.matches_selector y = true
                  /\ AccessibleModal.visible y = true).
  { intros dom x Hx. right. exists dom, x.
    destruct (focusable_in dom x Hx) as (H1 & H2 & H3).
    repeat split; auto. now left. }
  assert (Hnone : exists l : list action,
             history m = history m ++ l
             /\ Forall (trapped (container m) (doms_of [i])) l).
  { exists []. split; [now rewrite app_nil_r|constructor]. }
  destruct i as [dom e|dom trigger|]; cbn [step doms_of flat_map app] in *.
  - unfold AccessibleModal.press, AccessibleModal.handleKeyDown.
    destruct (listening m) eqn:Hl; [|exact Hnone].
    destruct (focusTrapActive m) eqn:Ha; cbn [negb]; [|exact Hnone].
    destruct (String.eqb (key e) "Escape").
    { unfold AccessibleModal.close. cbn.
      destruct (previouslyFocusedElement m); cbn;
        repeat rewrite <- app_assoc; cbn [app];
        eexists; (split; [reflexivity|]); settle Hin. }
    destruct (String.eqb (key e) "Tab") eqn:Htab; [|exact Hnone].
    unfold AccessibleModal.trapFocus. rewrite Htab.
    cbn -[AccessibleModal.getFocusableElements List.last has_focus].
    destruct (AccessibleModal.getFocusableElements dom) as [|x xs] eqn:E.
    { cbn. eexists; split; [reflexivity|]. settle Hin. }
    assert (Hfirst : In x (AccessibleModal.getFocusableElements dom))
      by (rewrite E; now left).
    assert (Hlast : In (List.last (x :: xs) x)
                      (AccessibleModal.getFocusableElements dom))
      by (rewrite E; apply last_in).
    destruct (shiftKey e);
      match goal with |- context [if ?b then _ else _] => destruct b end;
      cbn -[List.last]; try exact Hnone;
      rewrite ?Ha, ?Hl; repeat rewrite <- app_assoc; cbn [app];
      eexists; (split; [reflexivity|]); settle Hin.
  - unfold AccessibleModal.open.
    cbn -[AccessibleModal.getFocusableElements List.find].
    destruct (AccessibleModal.getFocusableElements dom) as [|x xs] eqn:E.
    { cbn. repeat rewrite <- app_assoc; cbn [app].
      eexists; split; [reflexivity|]. settle Hin. }
    assert (Hfirst : In x (AccessibleModal.getFocusableElements dom))
      by (rewrite E; now left).
    destruct (List.find AccessibleModal.is_text_entry (x :: xs))
      as [y|] eqn:F.
    + assert (Hy : In y (AccessibleModal.getFocusableElements dom)).
      { rewrite E. now apply find_some in F. }
      cbn. repeat rewrite <- app_assoc; cbn [app].
      eexists; split; [reflexivity|]. settle Hin.
    + cbn. repeat rewrite <- app_assoc; cbn [app].
      eexists; split; [reflexivity|]. settle Hin.
  - unfold AccessibleModal.close. cbn.
    destruct (previouslyFocusedElement m); cbn;
      repeat rewrite <- app_assoc; cbn [app];
      eexists; (split; [reflexivity|]); settle Hin.
Qed.

Lemma trapped_more self doms doms' a :
  (forall d, In d doms -> In d doms') ->
  trapped self doms a -> trapped self doms' a.
Proof.
  intros Hsub. destruct a; cbn; auto.
  intros (H1 & H2 & [H|(dom & x & Hd & H)]); repeat split; auto.
  right. exists dom, x. split; [now apply Hsub|exact H].
Qed.

Lemma run_history inputs : forall m,
  exists l,
    history (run inputs m) = history m ++ l
    /\ Forall (trapped (container m) (doms_of inputs)) l.
Proof.
  induction inputs as [|i inputs IH]; intros m.
  - exists []. split; [now rewrite app_nil_r|constructor].
  - cbn [run fold_left].
    destruct (step_history i m) as (l1 & H1 & T1).
    destruct (IH (step i m)) as (l2 & H2 & T2).
    rewrite step_container in T2.
    exists (l1 ++ l2). split.
    + unfold run in H2. rewrite H2, H1. now rewrite app_assoc.
    + assert (Hsplit : forall d,
                 In d (doms_of [i]) \/ In d (doms_of inputs) ->
                 In d (doms_of (i :: inputs))).
      { intros d. unfold doms_of. cbn [flat_map].
        rewrite app_nil_r, in_app_iff. auto. }
      apply Forall_app. split.
      * eapply Forall_impl; [exact T1|]. intros a. apply trapped_more.
        auto.
      * eapply Forall_impl; [exact T2|]. intros a. apply trapped_more.
        auto.
Qed.

(** X22: whatever the sequence of key presses and calls of [open] and
    [close], and whatever state the modal starts in, every focus move the
    modal makes itself is made while the trap is active and the key listener
    attached, and goes to the modal or to an element that was inside the
    modal, visible and matched by the focusable selector at that input. *)
Theorem embedded_focus_stays_inside inputs m :
  Forall (trapped (container m) (doms_of inputs))
    (since m (run inputs m)).
Proof.
  destruct (run_history inputs m) as (l & Hl & Ht).
  unfold since. rewrite Hl, drop_app_length. exact Ht.
Qed.

(** A run of [embedded_trapFocus]: Tab on the last element of the opened
    dialog moves focus to the first. *)
Lemma embedded_trapFocus_witness :
  focusTrapActive (Samples.with_focus 4 MoreSamples.opened_modal) = true
  /\ listening (Samples.with_focus 4 MoreSamples.opened_modal) = true
  /\ activeElement
       (AccessibleModal.press Samples.dialog Samples.tab
          (Samples.with_focus 4 MoreSamples.opened_modal))
     = Some 1.
Proof.
  split; [reflexivity|]. split; [reflexivity|].
  exact (proj2 (proj2 (embedded_trapFocus Samples.dialog false
                         (Samples.with_focus 4 MoreSamples.opened_modal)
                         eq_refl eq_refl))).
Defined.

(** A run of [embedded_flags_stay_together]: the dialog is opened, Tab is
    pressed, the dialog is closed. *)
Lemma embedded_flags_witness :
  flags_agree Samples.closed_modal
  /\ flags_agree
       (run [ Open Samples.dialog (Some 9);
              KeyDown Samples.dialog Samples.tab;
              Close ]
          Samples.closed_modal).
Proof.
  assert (H : flags_agree Samples.closed_modal) by (repeat split).
  split; [exact H|].
  apply (embedded_flags_stay_together
           [ Open Samples.dialog (Some 9);
             KeyDown Samples.dialog Samples.tab;
             Close ]
           Samples.closed_modal H).
Defined.

(** A run of [embedded_closed_modal_ignores_keys]: Escape and Tab after the
    dialog has been closed. *)
Lemma embedded_closed_modal_witness :
  run [ KeyDown Samples.dialog (mkKey "Escape" false);
        KeyDown Samples.dialog Samples.tab ]
    (AccessibleModal.close MoreSamples.opened_modal)
  = AccessibleModal.close MoreSamples.opened_modal.
Proof.
  apply (embedded_closed_modal_ignores_keys
           [ KeyDown Samples.dialog (mkKey "Escape" false);
             KeyDown Samples.dialog Samples.tab ]
           MoreSamples.opened_modal eq_refl).
Defined.

End SessionFacts.

(** ** Refining a search, and moving through a study session *)

Module SearchMore.
Import Json DeckManager SearchManager RegistryFacts SearchFacts.

Lemma prefix_spec a : forall b,
  String.prefix a b = true <-> exists rest, b = String.append a rest.
Proof.
  induction a as [|c a IH]; intros b.
  - destruct b; simpl; (split; [intros _; now eexists|reflexivity]).
  - destruct b as [|d b]; simpl.
    + split; [discriminate|]. intros [rest H]. discriminate.
    + destruct (Ascii.ascii_dec c d) as [->|Hne].
      * rewrite IH. split; intros [rest H]; exists rest.
        -- now rewrite H.
        -- now injection H.
      * split; [discriminate|]. intros [rest H]. injection H as H1 H2.
        congruence.
Qed.

Lemma append_assoc a b c :
  String.append (String.append a b) c = String.append a (String.append b c).
Proof. induction a as [|x a IH]; simpl; [reflexivity|now rewrite IH]. Qed.

Lemma includes_spec needle : forall hay,
  Str.includes hay needle = true
  <-> exists pre post,
        hay = String.append pre (String.append needle post).
Proof.
  induction hay as [|c hay IH]; cbn [Str.includes].
  - rewrite orb_false_r, prefix_spec. split.
    + intros [rest H]. now exists EmptyString, rest.
    + intros (pre & post & H). destruct pre; [|discriminate].
      now exists post.
  - rewrite orb_true_iff, prefix_spec, IH. split.
    + intros [[rest H]|(pre & post & H)].
      * now exists EmptyString, rest.
      * exists (String c pre), post. cbn. now rewrite H.
    + intros (pre & post & H). destruct pre as [|d pre].
      * left. now exists post.
      * right. exists pre, post. now injection H.
Qed.

(** A text that contains [b] contains what [b] contains. *)
Lemma includes_trans a b c :
  Str.includes a b = true -> Str.includes b c = true ->
  Str.includes a c = true.
Proof.
  rewrite !includes_spec.
  intros (p1 & s1 & ->) (p2 & s2 & ->).
  exists (String.append p1 p2), (String.append s2 s1).
  now rewrite !append_assoc.
Qed.

Lemma filter_filter_implied {A} (p q : A -> bool) xs :
  (forall x, q x = true -> p x = true) ->
  List.filter q (List.filter p xs) = List.filter q xs.
Proof.
  intros H. induction xs as [|x xs IH]; cbn; [reflexivity|].
  destruct (p x) eqn:Hp; cbn.
  - now rewrite IH.
  - destruct (q x) eqn:Hq; [|exact IH].
    apply H in Hq. congruence.
Qed.

(** [filterCards] on a list of cards. *)
Lemma filterCards_cards cards query h elems :
  read_arr h cards = Ok elems ->
  Forall (fun c => is_card (deref h c)) elems ->
  filterCards cards query h
  = (h ++ [Arr (List.filter (contains_trimmed h query) elems)],
     Ok (length h)).
Proof.
  intros Harr Hcards. unfold filterCards.
  now rewrite Harr, (filterM_cards _ _ _ Hcards).
Qed.

(** X23: refining a search.  When the normalised second query contains the
    normalised first one (as when more characters are typed), filtering the
    result of the first search with the second query gives the same cards
    as filtering all cards with the second query, and every card the second
    query finds was found by the first. *)
Theorem narrower_query_refines cards q1 q2 h elems :
  read_arr h cards = Ok elems ->
  Forall (fun c => is_card (deref h c)) elems ->
  Str.includes (Str.trim (Str.toLowerCase q2)) (Str.trim (Str.toLowerCase q1))
  = true ->
  let first := filterCards cards q1 h in
  let direct := filterCards cards q2 h in
  let refined := filterCards (length h) q2 (fst first) in
  exists found1 found2,
    snd first = Ok (length h)
    /\ read_arr (fst first) (length h) = Ok found1
    /\ snd direct = Ok (length h)
    /\ read_arr (fst direct) (length h) = Ok found2
    /\ snd refined = Ok (S (length h))
    /\ read_arr (fst refined) (S (length h)) = Ok found2
    /\ forall c, In c found2 -> In c found1.
Proof.
  intros Harr Hcards Hinc. cbv zeta.
  set (found1 := List.filter (contains_trimmed h q1) elems).
  set (found2 := List.filter (contains_trimmed h q2) elems).
  assert (Himp : forall c, contains_trimmed h q2 c = true ->
                           contains_trimmed h q1 c = true).
  { intros c. unfold contains_trimmed. rewrite !orb_true_iff.
    intros [H|H]; [left|right]; eapply includes_trans; eauto. }
  rewrite (filterCards_cards cards q1 h elems Harr Hcards).
  rewrite (filterCards_cards cards q2 h elems Harr Hcards).
  cbn [fst snd]. fold found1 found2.
  assert (Hread1 : read_arr (h ++ [Arr found1]) (length h) = Ok found1).
  { unfold read_arr. now rewrite list_lookup_middle. }
  assert (Hcards1 : Forall (fun c => is_card (deref (h ++ [Arr found1]) c))
                      found1).
  { apply Forall_forall. intros c Hc. rewrite deref_alloc_arr.
    apply list_elem_of_In, filter_In in Hc as [Hc _].
    rewrite Forall_forall in Hcards. apply Hcards.
    now apply list_elem_of_In. }
  rewrite (filterCards_cards (length h) q2 _ found1 Hread1 Hcards1).
  cbn [fst snd]. rewrite length_app. cbn [length].
  replace (length h + 1) with (S (length h)) by lia.
  assert (Hsame : List.filter (contains_trimmed (h ++ [Arr found1]) q2)
                    found1 = found2).
  { unfold found1, found2.
    rewrite <- (filter_filter_implied (contains_trimmed h q1)
                  (contains_trimmed h q2) elems Himp).
    apply filter_ext. intros c. unfold contains_trimmed.
    now rewrite deref_alloc_arr. }
  rewrite Hsame.
  exists found1, found2.
  split; [reflexivity|]. split; [exact Hread1|].
  split; [reflexivity|].
  split; [unfold read_arr; now rewrite list_lookup_middle|].
  split; [reflexivity|].
  split.
  - unfold read_arr.
    replace (S (length h)) with (length (h ++ [Arr found1]))
      by (rewrite length_app; cbn; lia).
    now rewrite list_lookup_middle.
  - intros c Hc. unfold found1, found2 in *.
    apply filter_In in Hc as [Hc Hq]. apply filter_In. auto.
Qed.

(** A run of [narrower_query_refines]: "ho", then "HOL", on the one card
    (hola, hello). *)
Lemma narrower_query_witness :
  Str.includes (Str.trim (Str.toLowerCase "HOL"))
    (Str.trim (Str.toLowerCase "ho")) = true
  /\ exists found1 found2,
       read_arr (fst (filterCards 1 "ho" Samples.one_card_heap)) 2
       = Ok found1
       /\ read_arr (fst (filterCards 1 "HOL" Samples.one_card_heap)) 2
          = Ok found2.
Proof.
  split; [reflexivity|].
  destruct (narrower_query_refines 1 "ho" "HOL" Samples.one_card_heap [0]
              eq_refl ltac:(repeat constructor) eq_refl)
    as (found1 & found2 & _ & H1 & _ & H2 & _).
  exists found1, found2. split; assumption.
Defined.

End SearchMore.

Module StudyMore.
Import Json DeckManager UIManager StudyFacts.
Local Open Scope Z_scope.

Lemma map_has_delete k m : map_has k (map_delete k m) = false.
Proof.
  unfold map_has, map_delete.
  induction m as [|e m IH]; cbn; [reflexivity|].
  destruct (same_key k (fst e)) eqn:E; cbn; [exact IH|].
  now rewrite E, IH.
Qed.

(** After a move the card at the new index is not marked as flipped. *)
Lemma navigate_unflips move w u s l cs id :
  study u = Some s -> active s = true ->
  getDeckById (deckId s) w = Ok (Some l) -> cards_of w l = Ok cs ->
  (1 <= length cs)%nat ->
  forall s',
    study (fst (navigate move w u)) = Some s' ->
    prop (card_at cs (currentIndex s')) "id" = Ok id ->
    map_has id (cardFlipState (fst (navigate move w u))) = false.
Proof.
  intros Hs Ha Hd Hc Hn. unfold navigate. rewrite Hs, Ha. cbn [negb].
  rewrite Hd, Hc.
  destruct (Z.eqb_spec (Z.of_nat (length cs)) 0) as [E|_]; [lia|].
  set (i0 := if Z.ltb (currentIndex s) 0
                  || Z.leb (Z.of_nat (length cs)) (currentIndex s)
             then 0 else currentIndex s).
  set (s1 := set_index (move i0 (Z.of_nat (length cs))) s).
  destruct (prop (card_at cs (currentIndex s1)) "id") as [id0|e] eqn:Hid.
  - unfold renderStudyModeCard.
    replace (deckId s1) with (deckId s) by reflexivity.
    rewrite Hd, Hc, Hid.
    destruct (map_has id0 _) eqn:Hhas; cbn [fst study cardFlipState];
      intros s' [= <-]; cbn [currentIndex]; intros Hid';
      assert (id = id0) as ->
        by (unfold s1, set_index in *; cbn [currentIndex] in *; congruence).
    + apply map_has_delete.
    + exact Hhas.
  - cbn [fst study]. intros s' [= <-]. rewrite Hid. discriminate.
Qed.

(** X24: after [studyModeNext] or [studyModePrevious] in an active
    session, the card the session is now at is shown front side up: its id
    is not in the flip state, whatever the flip state held before. *)
Theorem study_navigation_shows_the_front w u s l cs :
  study u = Some s -> active s = true ->
  getDeckById (deckId s) w = Ok (Some l) -> cards_of w l = Ok cs ->
  (1 <= length cs)%nat ->
  (forall s' id,
      study (fst (studyModeNext w u)) = Some s' ->
      prop (card_at cs (currentIndex s')) "id" = Ok id ->
      map_has id (cardFlipState (fst (studyModeNext w u))) = false)
  /\ (forall s' id,
        study (fst (studyModePrevious w u)) = Some s' ->
        prop (card_at cs (currentIndex s')) "id" = Ok id ->
        map_has id (cardFlipState (fst (studyModePrevious w u))) = false).
Proof.
  intros Hs Ha Hd Hc Hn. split; intros s' id; unfold studyModeNext,
    studyModePrevious; eapply navigate_unflips; eauto.
Qed.

Lemma iter_navigate move w l cs (f : Z -> Z) :
  cards_of w l = Ok cs -> (1 <= length cs)%nat ->
  (forall i, 0 <= f i < Z.of_nat (length cs)) ->
  (forall i, 0 <= i < Z.of_nat (length cs) ->
             move i (Z.of_nat (length cs)) = f i) ->
  forall k u s,
    study u = Some s -> active s = true ->
    getDeckById (deckId s) w = Ok (Some l) ->
    0 <= currentIndex s < Z.of_nat (length cs) ->
    exists s',
      study (Nat.iter k (fun u => fst (navigate move w u)) u) = Some s'
      /\ active s' = true /\ deckId s' = deckId s
      /\ currentIndex s' = Nat.iter k f (currentIndex s).
Proof.
  intros Hc Hn Hf Hmove. induction k as [|k IH]; intros u s Hs Ha Hd Hi.
  - exists s. cbn. auto.
  - destruct (IH u s Hs Ha Hd Hi) as (s1 & Hs1 & Ha1 & Hd1 & Hi1).
    rewrite !Nat.iter_succ.
    assert (Hr : 0 <= currentIndex s1 < Z.of_nat (length cs)).
    { rewrite Hi1. destruct k; [exact Hi|rewrite Nat.iter_succ; apply Hf]. }
    destruct (navigate_index move w _ s1 l cs Hs1 Ha1
                ltac:(now rewrite Hd1) Hc Hn) as (s2 & Hs2 & Ha2 & Hd2 & Hi2).
    exists s2. split; [exact Hs2|]. split; [exact Ha2|].
    split; [congruence|].
    rewrite Hi2, (normalised_id _ _ Hr), Hmove by exact Hr. now rewrite Hi1.
Qed.

Lemma iter_succ_mod n i k :
  0 < n -> 0 <= i < n ->
  Nat.iter k (fun j => (j + 1) mod n) i = (i + Z.of_nat k) mod n.
Proof.
  intros Hn Hi. induction k as [|k IH].
  - cbn. rewrite Z.add_0_r. symmetry. now apply Z.mod_small.
  - rewrite Nat.iter_succ, IH, Zplus_mod_idemp_l. f_equal. lia.
Qed.

Lemma iter_pred_mod n i k :
  0 < n -> 0 <= i < n ->
  Nat.iter k (fun j => (j - 1) mod n) i = (i - Z.of_nat k) mod n.
Proof.
  intros Hn Hi. induction k as [|k IH].
  - cbn. rewrite Z.sub_0_r. symmetry. now apply Z.mod_small.
  - rewrite Nat.iter_succ, IH, Zminus_mod_idemp_l. f_equal. lia.
Qed.

(** X25: from an index inside the deck, [k] calls of [studyModeNext] lead
    to the index [k] further on, counted round the deck, and [k] calls of
    [studyModePrevious] to the index [k] further back; as many calls as the
    deck has cards lead back to the card the session was at. *)
Theorem study_navigation_goes_round w u s l cs k :
  study u = Some s -> active s = true ->
  getDeckById (deckId s) w = Ok (Some l) -> cards_of w l = Ok cs ->
  (1 <= length cs)%nat ->
  let N := Z.of_nat (length cs) in
  let i := currentIndex s in
  0 <= i < N ->
  index_of (Nat.iter k (fun u => fst (studyModeNext w u)) u)
  = Some ((i + Z.of_nat k) mod N)
  /\ index_of (Nat.iter k (fun u => fst (studyModePrevious w u)) u)
     = Some ((i - Z.of_nat k) mod N)
  /\ index_of (Nat.iter (length cs) (fun u => fst (studyModeNext w u)) u)
     = Some i
  /\ index_of (Nat.iter (length cs) (fun u => fst (studyModePrevious w u)) u)
     = Some i.
Proof.
  intros Hs Ha Hd Hc Hn N i Hi.
  assert (HN : 0 < N) by (subst N; lia).
  assert (Hnext : forall k,
             index_of (Nat.iter k (fun u => fst (studyModeNext w u)) u)
             = Some ((i + Z.of_nat k) mod N)).
  { intros k0.
    destruct (iter_navigate (fun i n => Z.rem (i + 1) n) w l cs
                (fun j => (j + 1) mod N) Hc Hn) with (k := k0) (u := u) (s := s)
      as (s' & Hs' & _ & _ & Hi'); try assumption.
    - intros j. now apply Z.mod_pos_bound.
    - intros j Hj. apply Z.rem_mod_nonneg; lia.
    - unfold index_of, studyModeNext. rewrite Hs'. cbn. f_equal.
      rewrite Hi'. now apply iter_succ_mod. }
  assert (Hprev : forall k,
             index_of (Nat.iter k (fun u => fst (studyModePrevious w u)) u)
             = Some ((i - Z.of_nat k) mod N)).
  { intros k0.
    destruct (iter_navigate (fun i n => Z.rem (i - 1 + n) n) w l cs
                (fun j => (j - 1) mod N) Hc Hn) with (k := k0) (u := u) (s := s)
      as (s' & Hs' & _ & _ & Hi'); try assumption.
    - intros j. now apply Z.mod_pos_bound.
    - intros j Hj. fold N. rewrite Z.rem_mod_nonneg by lia.
      replace (j - 1 + N) with (j - 1 + 1 * N) by lia.
      now rewrite Z_mod_plus_full.
    - unfold index_of, studyModePrevious. rewrite Hs'. cbn. f_equal.
      rewrite Hi'. now apply iter_pred_mod. }
  split; [apply Hnext|]. split; [apply Hprev|]. split.
  - rewrite Hnext. f_equal. fold N.
    replace (i + N) with (i + 1 * N) by lia.
    rewrite Z_mod_plus_full. now apply Z.mod_small.
  - rewrite Hprev. f_equal. fold N.
    replace (i - N) with (i + (-1) * N) by lia.
    rewrite Z_mod_plus_full. now apply Z.mod_small.
Qed.

(** A run of [study_navigation_goes_round]: three times next on a deck of
    three cards. *)
Lemma study_goes_round_witness :
  getDeckById 1 Samples.three_cards = Ok (Some 0%nat)
  /\ index_of
       (Nat.iter 3 (fun u => fst (studyModeNext Samples.three_cards u))
          Samples.studying)
     = Some 2.
Proof.
  split; [reflexivity|].
  pose proof (study_navigation_goes_round Samples.three_cards Samples.studying
                (mkStudy true 1 2 0 []) 0%nat
                [ JObj [ ("id", JStr "card-1-a"); ("front", JStr "hola");
                         ("back", JStr "hello");
                         ("createdAt", JStr Samples.clock) ];
                  JObj [ ("id", JStr "card-2-b"); ("front", JStr "adios");
                         ("back", JStr "goodbye");
                         ("createdAt", JStr Samples.clock) ];
                  JObj [ ("id", JStr "card-3-c"); ("front", JStr "gracias");
                         ("back", JStr "thanks");
                         ("createdAt", JStr Samples.clock) ] ]
                3%nat eq_refl eq_refl eq_refl eq_refl ltac:(simpl; lia)
                ltac:(simpl; lia)) as H.
  exact (proj1 (proj2 (proj2 H))).
Defined.

(** A run of [study_navigation_shows_the_front]: the first card is flipped,
    the session is at the last card, and next wraps to the first. *)
Lemma study_shows_the_front_witness :
  map_has (Some (JStr "card-1-a"))
    (cardFlipState
       (fst (studyModeNext Samples.three_cards
               (mkUI (Some (mkStudy true 1 2 0 []))
                  [ (Some (JStr "card-1-a"), true) ] []))))
  = false.
Proof.
  refine (proj1 (study_navigation_shows_the_front Samples.three_cards
                   (mkUI (Some (mkStudy true 1 2 0 []))
                      [ (Some (JStr "card-1-a"), true) ] [])
                   (mkStudy true 1 2 0 []) 0%nat _
                   eq_refl eq_refl eq_refl eq_refl ltac:(simpl; lia))
            _ (Some (JStr "card-1-a")) eq_refl eq_refl).
Defined.

End StudyMore.
